(** * raiden_libs.network.matrix.client — GMatrixClient

    A shallow embedding of [src/raiden_libs/network/matrix/client.py]:
    the long-poll loop [listen_forever] with its exponential backoff,
    [start_listener_thread], [search_user_directory],
    [modify_presence_list] and the five listener registrations.

    Python integers are unbounded, so they are [Z].  Blocking calls
    ([_sync], [gevent.sleep], the exception handler, [api._send]) are the
    environment: what they answer is an input of the model and what the
    code asks of them is recorded in a trace. *)

From Stdlib Require Import ZArith List String Bool Lia.
Import ListNotations.
Set Warnings "-register-all".
Open Scope string_scope.
Open Scope Z_scope.

(** ** Python exceptions and results *)

Module Py.

(** The exception classes the module distinguishes.  [MatrixRequestError]
    carries the HTTP status [code]; [KeyError] and [TypeError] are what
    subscripting and iterating raise; [OtherException] is any further
    subclass of [Exception]; [NonException] is a [BaseException] outside
    [Exception] ([GreenletExit], [KeyboardInterrupt], ...). *)
Inductive exc : Type :=
| MatrixRequestError (code : Z) (content : string)
| KeyError (key : string)
| TypeError (msg : string)
| OtherException (cls : string) (msg : string)
| NonException (cls : string).

(** [isinstance(e, MatrixRequestError)] *)
Definition is_MatrixRequestError (e : exc) : bool :=
  match e with
  | MatrixRequestError _ _ => true
  | _ => false
  end.

(** [isinstance(e, Exception)] *)
Definition is_Exception (e : exc) : bool :=
  match e with
  | NonException _ => false
  | _ => true
  end.

(** [isinstance(e, KeyError)] *)
Definition is_KeyError (e : exc) : bool :=
  match e with
  | KeyError _ => true
  | _ => false
  end.

(** A computation that returns a value or raises. *)
Inductive result (A : Type) : Type :=
| Return (a : A)
| Raise (e : exc).
Arguments Return {A} a.
Arguments Raise {A} e.

Definition bind {A B : Type} (m : result A) (k : A -> result B) : result B :=
  match m with
  | Return a => k a
  | Raise e => Raise e
  end.

(** [try: m except KeyError: h] *)
Definition except_KeyError {A : Type} (m : result A) (h : result A) : result A :=
  match m with
  | Return a => Return a
  | Raise e => if is_KeyError e then h else Raise e
  end.

End Py.
Import Py.

Notation "x <- m ;; k" := (Py.bind m (fun x => k))
  (at level 61, m at next level, right associativity).

(** ** The client object *)

(** A callable given to a registration method; opaque to this module. *)
Inductive callback : Type :=
| Callback (name : string).

(** What the exception handler does when called: it returns, or raises. *)
Inductive handler_outcome : Type :=
| HReturns
| HRaises (e : exc).

Definition exception_handler_t : Type := exc -> handler_outcome.

(** A greenlet made by [gevent.spawn(self.listen_forever, timeout_ms,
    exception_handler)]: which spawn it is, and the arguments it was
    spawned with. *)
Record greenlet : Type := mkGreenlet {
  g_id : nat;
  g_timeout_ms : Z;
  g_exception_handler : option exception_handler_t
}.

(** The category a listener is registered under, one per registration
    method of the parent class. *)
Inductive listener_kind : Type :=
| Invite | Leave | Presence | Generic | Ephemeral.

Record listener_entry : Type := mkEntry {
  le_kind : listener_kind;
  le_callback : callback;
  le_event_type : option string
}.

(** The attributes of [self] the module reads or writes.  [should_listen]
    and [sync_thread] are set in [__init__]; [user_id],
    [bad_sync_timeout_limit] and the listener lists are inherited from
    [MatrixClient]. *)
Record GMatrixClient : Type := mkClient {
  should_listen : bool;
  sync_thread : option greenlet;
  user_id : option string;
  bad_sync_timeout_limit : Z;
  listeners : list listener_entry
}.

Definition set_should_listen (b : bool) (c : GMatrixClient) : GMatrixClient :=
  mkClient b (sync_thread c) (user_id c) (bad_sync_timeout_limit c) (listeners c).

Definition set_sync_thread (g : option greenlet) (c : GMatrixClient) : GMatrixClient :=
  mkClient (should_listen c) g (user_id c) (bad_sync_timeout_limit c) (listeners c).

Definition set_listeners (l : list listener_entry) (c : GMatrixClient) : GMatrixClient :=
  mkClient (should_listen c) (sync_thread c) (user_id c) (bad_sync_timeout_limit c) l.

(** [GMatrixClient.__init__]: [should_listen = False], [sync_thread = None].
    [uid] is the value [self.user_id] holds afterwards.  The parent class
    assigns that attribute only when a token is given; the record has no
    way to say that an attribute was never assigned, so [init None] is to be
    used only where [user_id] is not read. *)
Definition init (uid : option string) (limit : Z) : GMatrixClient :=
  mkClient false None uid limit [].

(** ** listen_forever *)

Module SyncLoop.

(** What the loop does to the outside, in order. *)
Inductive event : Type :=
| ESync (timeout_ms : Z)            (* self._sync(timeout_ms) *)
| EWarning (msg : string)           (* logger.warning(msg) *)
| EWarningWait (seconds : Z)        (* logger.warning('... Waiting %i seconds', s) *)
| ESleep (seconds : Z)              (* gevent.sleep(s) *)
| ELogException (msg : string)      (* logger.exception(msg) *)
| EHandler (e : exc).               (* exception_handler(e) *)

(** What the environment does during one iteration: [_sync] returns
    ([None]) or raises, and [stop] tells whether somebody (a listener run
    by [_sync], or another greenlet while this one is suspended) has set
    [self.should_listen = False] before the loop tests it again.
    [gevent.sleep] and the logger are taken to return. *)
Record sync_step : Type := mkStep {
  sync_result : option exc;
  stop : bool
}.

(** The local variable [_bad_sync_timeout], [self], and the trace so far. *)
Record loop_state : Type := mkState {
  self : GMatrixClient;
  _bad_sync_timeout : Z;
  trace : list event
}.

Definition emit (evs : list event) (st : loop_state) : loop_state :=
  mkState (self st) (_bad_sync_timeout st) (trace st ++ evs).

Definition set_delay (d : Z) (st : loop_state) : loop_state :=
  mkState (self st) d (trace st).

Definition env_stop (b : bool) (st : loop_state) : loop_state :=
  mkState (set_should_listen (should_listen (self st) && negb b) (self st))
          (_bad_sync_timeout st) (trace st).

Section Loop.

(** The arguments of [listen_forever]. *)
Variable timeout_ms : Z.
Variable exception_handler : option exception_handler_t.
Variable bad_sync_timeout : Z.

(** The body of the [while]: the [try] statement.  [None] means the body
    ran to its end; [Some e] means [e] left the [try] statement. *)
Definition iteration (ev : sync_step) (st : loop_state) : option exc * loop_state :=
  let st := env_stop (stop ev) (emit [ESync timeout_ms] st) in
  match sync_result ev with
  | None =>
      (None, set_delay bad_sync_timeout st)
  | Some (MatrixRequestError code content as e) =>
      let st := emit [EWarning "A MatrixRequestError occured during sync."] st in
      if code >=? 500 then
        let st := emit [EWarningWait (_bad_sync_timeout st);
                        ESleep (_bad_sync_timeout st)] st in
        (None, set_delay (Z.min (_bad_sync_timeout st * 2)
                                (bad_sync_timeout_limit (self st))) st)
      else
        (Some e, st)
  | Some e =>
      if is_Exception e then
        let st := emit [ELogException "Exception thrown during sync"] st in
        match exception_handler with
        | Some h =>
            let st := emit [EHandler e] st in
            match h e with
            | HReturns => (None, st)
            | HRaises e' => (Some e', st)
            end
        | None => (Some e, st)
        end
      else
        (Some e, st)
  end.

(** How a run over a finite script of environment answers ends:
    [Pending] — the loop is alive and about to call [_sync] again;
    [Returned] — [should_listen] was false at the loop test;
    [Raised e] — [e] left [listen_forever]. *)
Inductive status : Type :=
| Pending
| Returned
| Raised (e : exc).

(** [while self.should_listen: ...] *)
Fixpoint listen_loop (script : list sync_step) (st : loop_state) : status * loop_state :=
  if should_listen (self st) then
    match script with
    | [] => (Pending, st)
    | ev :: rest =>
        match iteration ev st with
        | (None, st') => listen_loop rest st'
        | (Some e, st') => (Raised e, st')
        end
    end
  else (Returned, st).

(** [listen_forever(self, timeout_ms, exception_handler, bad_sync_timeout)] *)
Definition listen_forever (c : GMatrixClient) (script : list sync_step)
  : status * loop_state :=
  listen_loop script (mkState (set_should_listen true c) bad_sync_timeout []).

End Loop.

(** Projections of a trace. *)
Definition sleeps (t : list event) : list Z :=
  flat_map (fun ev => match ev with ESleep d => [d] | _ => [] end) t.

Definition sync_calls (t : list event) : list Z :=
  flat_map (fun ev => match ev with ESync d => [d] | _ => [] end) t.

Definition handler_calls (t : list event) : list exc :=
  flat_map (fun ev => match ev with EHandler e => [e] | _ => [] end) t.

(** The classification the loop makes: a [MatrixRequestError] whose code
    is at least 500 is retried; every other exception is not. *)
Definition is_transient (e : exc) : bool :=
  match e with
  | MatrixRequestError code _ => 500 <=? code
  | _ => false
  end.

(** A step in which [_sync] raises a retried error and nobody stops the
    loop. *)
Definition transient_step (s : sync_step) : bool :=
  match sync_result s with
  | Some e => is_transient e && negb (stop s)
  | None => false
  end.

(** A script after which the backoff is fresh (nothing ran yet) or just
    reset (the last [_sync] returned). *)
Definition fresh_or_reset (pre : list sync_step) : bool :=
  match rev pre with
  | [] => true
  | s :: _ => match sync_result s with None => true | Some _ => false end
  end.

(** The delays as the loop computes them from a current delay [d]. *)
Fixpoint delays_from (d limit : Z) (n : nat) : list Z :=
  match n with
  | O => []
  | S n' => d :: delays_from (Z.min (d * 2) limit) limit n'
  end.

(** The delays as the specification lists them:
    [base, min(base*2, ceiling), min(base*4, ceiling), ...]. *)
Definition backoff_delay (base ceiling : Z) (k : nat) : Z :=
  match k with
  | O => base
  | S _ => Z.min (base * 2 ^ Z.of_nat k) ceiling
  end.

Definition backoff_delays (base ceiling : Z) (n : nat) : list Z :=
  map (backoff_delay base ceiling) (seq 0 n).

End SyncLoop.

(** ** start_listener_thread *)

Module Runner.

(** The client together with the greenlets the hub holds: every greenlet
    that was spawned and has not finished.  A listener greenlet finishes
    only when its [listen_forever] returns or raises. *)
Record world : Type := mkWorld {
  client : GMatrixClient;
  hub : list greenlet
}.

(** [gevent.spawn(self.listen_forever, timeout_ms, exception_handler)]:
    a new greenlet is made and scheduled; the caller keeps running. *)
Definition spawn (timeout_ms : Z) (exception_handler : option exception_handler_t)
  (w : world) : greenlet * world :=
  let g := mkGreenlet (List.length (hub w)) timeout_ms exception_handler in
  (g, mkWorld (client w) (hub w ++ [g])).

(** [start_listener_thread(self, timeout_ms, exception_handler)] *)
Definition start_listener_thread (timeout_ms : Z)
  (exception_handler : option exception_handler_t) (w : world) : world :=
  let w := mkWorld (set_should_listen true (client w)) (hub w) in
  let (g, w) := spawn timeout_ms exception_handler w in
  mkWorld (set_sync_thread (Some g) (client w)) (hub w).

(** The default of [timeout_ms] in both signatures. *)
Definition default_timeout_ms : Z := 30000.

(** The default of [bad_sync_timeout] in [listen_forever]. *)
Definition default_bad_sync_timeout : Z := 5.

(** What a spawned greenlet runs once scheduled: [listen_forever] with the
    two arguments of the spawn and the default [bad_sync_timeout]. *)
Definition run (g : greenlet) (c : GMatrixClient) (script : list SyncLoop.sync_step)
  : SyncLoop.status * SyncLoop.loop_state :=
  SyncLoop.listen_forever (g_timeout_ms g) (g_exception_handler g)
    default_bad_sync_timeout c script.

End Runner.

(** ** JSON values as Python sees them *)

Module Json.

(** A decoded response body.  Numbers are kept as integers: no operation
    below looks inside one. *)
Inductive json : Type :=
| JNull
| JBool (b : bool)
| JNum (n : Z)
| JStr (s : string)
| JArr (items : list json)
| JObj (fields : list (string * json)).

Fixpoint lookup (key : string) (fields : list (string * json)) : option json :=
  match fields with
  | [] => None
  | (k, v) :: rest => if String.eqb k key then Some v else lookup key rest
  end.

(** [v[key]] for a string [key]: a dict answers or raises [KeyError];
    nothing else can be subscripted by a string. *)
Definition getitem (v : json) (key : string) : result json :=
  match v with
  | JObj fields =>
      match lookup key fields with
      | Some x => Return x
      | None => Raise (KeyError key)
      end
  | JArr _ => Raise (TypeError "list indices must be integers or slices, not str")
  | JStr _ => Raise (TypeError "string indices must be integers")
  | JNull => Raise (TypeError "'NoneType' object is not subscriptable")
  | JBool _ => Raise (TypeError "'bool' object is not subscriptable")
  | JNum _ => Raise (TypeError "'int' object is not subscriptable")
  end.

Fixpoint chars (s : string) : list json :=
  match s with
  | EmptyString => []
  | String a rest => JStr (String a EmptyString) :: chars rest
  end.

(** [for x in v]: a list gives its items, a dict its keys, a string its
    characters; the rest is not iterable. *)
Definition iter (v : json) : result (list json) :=
  match v with
  | JArr items => Return items
  | JObj fields => Return (map (fun kv => JStr (fst kv)) fields)
  | JStr s => Return (chars s)
  | JNull => Raise (TypeError "'NoneType' object is not iterable")
  | JBool _ => Raise (TypeError "'bool' object is not iterable")
  | JNum _ => Raise (TypeError "'int' object is not iterable")
  end.

End Json.
Import Json.

(** One call of [self.api._send(method, path, content)]. *)
Record request : Type := mkRequest {
  method : string;
  path : string;
  content : option json
}.

(** ** search_user_directory *)

Module Directory.

Section Search.

(** [matrix_client.user.User] and its constructor
    [User(self.api, user_id, display_name)], which may raise. *)
Variable user : Type.
Variable User : json -> json -> result user.

(** [self.api._send]: the server's decoded answer, or an exception. *)
Variable _send : request -> result json.

(** The element of the comprehension:
    [User(self.api, _user['user_id'], _user['display_name'])]. *)
Definition user_of (_user : json) : result user :=
  uid <- getitem _user "user_id" ;;
  display_name <- getitem _user "display_name" ;;
  User uid display_name.

(** The list comprehension over the items of [response['results']]. *)
Fixpoint users_of (items : list json) : result (list user) :=
  match items with
  | [] => Return []
  | _user :: rest =>
      u <- user_of _user ;;
      us <- users_of rest ;;
      Return (u :: us)
  end.

(** The [try] statement, given the response. *)
Definition users_of_response (response : json) : result (list user) :=
  except_KeyError
    (results <- getitem response "results" ;;
     items <- iter results ;;
     users_of items)
    (Return []).

(** [search_user_directory(self, term)] *)
Definition search_user_directory (term : string) : result (list user) :=
  response <- _send (mkRequest "POST" "/user_directory/search"
                       (Some (JObj [("search_term", JStr term)]))) ;;
  users_of_response response.

End Search.

(** A plain user object for concrete runs: the two values it was built
    from.  Its constructor never raises. *)
Record plain_user : Type := mkUser {
  pu_user_id : json;
  pu_displayname : json
}.

Definition plain_User (uid display_name : json) : result plain_user :=
  Return (mkUser uid display_name).

(** A server that answers every request with [body]. *)
Definition answering (body : json) : request -> result json :=
  fun _ => Return body.

End Directory.

(** ** modify_presence_list *)

Module Presence.

Section Modify.

(** [urllib.parse.quote] on a string. *)
Variable quote : string -> string.
Variable _send : request -> result json.

(** A list of user ids as the JSON list it is sent as. *)
Definition ids (l : list string) : json := JArr (map JStr l).

(** [quote(self.user_id)]: [quote(None)] raises [TypeError]. *)
Definition quoted_user_id (c : GMatrixClient) : result string :=
  match user_id c with
  | Some u => Return (quote u)
  | None => Raise (TypeError "quote_from_bytes() expected bytes")
  end.

(** The arguments [modify_presence_list] gives to [self.api._send]. *)
Definition presence_list_request (c : GMatrixClient)
  (add_user_ids remove_user_ids : option (list string)) : result request :=
  let add_user_ids := match add_user_ids with None => [] | Some l => l end in
  let remove_user_ids := match remove_user_ids with None => [] | Some l => l end in
  q <- quoted_user_id c ;;
  Return (mkRequest "POST" ("/presence/list/" ++ q)
            (Some (JObj [("invite", ids add_user_ids);
                         ("drop", ids remove_user_ids)]))).

(** [modify_presence_list(self, add_user_ids, remove_user_ids)] *)
Definition modify_presence_list (c : GMatrixClient)
  (add_user_ids remove_user_ids : option (list string)) : result json :=
  req <- presence_list_request c add_user_ids remove_user_ids ;;
  _send req.

End Modify.

End Presence.

(** ** Listener registration *)

Module Listeners.

(** Modelled from the spec: the registry of the parent class
    [MatrixClient], which is not among the sources.  "[register(category,
    callback)] appends; never fails for valid category": the entry goes to
    the end of the registry.  The identifier some of the parent's methods
    return is passed through by the subclass and is left out here. *)
Definition register (kind : listener_kind) (cb : callback)
  (event_type : option string) (c : GMatrixClient) : GMatrixClient :=
  set_listeners (listeners c ++ [mkEntry kind cb event_type]) c.

Section Wrap.

(** [geventify_callback] of [.utils]: some function from callables to
    callables. *)
Variable geventify_callback : callback -> callback.

Definition add_invite_listener (cb : callback) (c : GMatrixClient) : GMatrixClient :=
  register Invite (geventify_callback cb) None c.

Definition add_leave_listener (cb : callback) (c : GMatrixClient) : GMatrixClient :=
  register Leave (geventify_callback cb) None c.

Definition add_presence_listener (cb : callback) (c : GMatrixClient) : GMatrixClient :=
  register Presence (geventify_callback cb) None c.

Definition add_listener (cb : callback) (event_type : option string)
  (c : GMatrixClient) : GMatrixClient :=
  register Generic (geventify_callback cb) event_type c.

Definition add_ephemeral_listener (cb : callback) (event_type : option string)
  (c : GMatrixClient) : GMatrixClient :=
  register Ephemeral (geventify_callback cb) event_type c.

(** One registration call on the client, whichever of the five. *)
Inductive registration : Type :=
| AddInvite (cb : callback)
| AddLeave (cb : callback)
| AddPresence (cb : callback)
| AddListener (cb : callback) (event_type : option string)
| AddEphemeral (cb : callback) (event_type : option string).

Definition perform (r : registration) (c : GMatrixClient) : GMatrixClient :=
  match r with
  | AddInvite cb => add_invite_listener cb c
  | AddLeave cb => add_leave_listener cb c
  | AddPresence cb => add_presence_listener cb c
  | AddListener cb et => add_listener cb et c
  | AddEphemeral cb et => add_ephemeral_listener cb et c
  end.

Definition perform_all (rs : list registration) (c : GMatrixClient) : GMatrixClient :=
  fold_left (fun c r => perform r c) rs c.

(** The callable the caller passed in a registration call. *)
Definition raw_callback (r : registration) : callback :=
  match r with
  | AddInvite cb | AddLeave cb | AddPresence cb => cb
  | AddListener cb _ | AddEphemeral cb _ => cb
  end.

Definition kind_of (r : registration) : listener_kind :=
  match r with
  | AddInvite _ => Invite
  | AddLeave _ => Leave
  | AddPresence _ => Presence
  | AddListener _ _ => Generic
  | AddEphemeral _ _ => Ephemeral
  end.

Definition event_type_of (r : registration) : option string :=
  match r with
  | AddListener _ et | AddEphemeral _ et => et
  | _ => None
  end.

End Wrap.

End Listeners.

(** ** The other endpoints *)

Module Endpoints.

Section Calls.

Variable quote : string -> string.
Variable _send : request -> result json.

(** A room object as [typing] uses it: its [room_id]. *)
Variable room : Type.
Variable room_id : room -> string.

(** [get_presence_list(self)] *)
Definition get_presence_list (c : GMatrixClient) : result json :=
  q <- Presence.quoted_user_id quote c ;;
  _send (mkRequest "GET" ("/presence/list/" ++ q) None).

(** [set_presence_state(self, state)] *)
Definition set_presence_state (c : GMatrixClient) (state : string) : result json :=
  q <- Presence.quoted_user_id quote c ;;
  _send (mkRequest "PUT" ("/presence/" ++ q ++ "/status")
           (Some (JObj [("presence", JStr state)]))).

(** The default of [timeout] in [typing]. *)
Definition default_typing_timeout : Z := 5000.

(** [typing(self, room, timeout)]: the path is built first, the room id
    quoted before the user id. *)
Definition typing (c : GMatrixClient) (r : room) (timeout : Z) : result json :=
  let qr := quote (room_id r) in
  q <- Presence.quoted_user_id quote c ;;
  let path := "/rooms/" ++ qr ++ "/typing/" ++ q in
  _send (mkRequest "PUT" path
           (Some (JObj [("typing", JBool true); ("timeout", JNum timeout)]))).

End Calls.

End Endpoints.

(** ** _mkroom *)

Module Rooms.

(** A Python dict with string keys, in insertion order: [self.rooms]. *)
Definition dict (V : Type) : Type := list (string * V).

(** [d[k]] *)
Fixpoint dict_get {V : Type} (k : string) (d : dict V) : result V :=
  match d with
  | [] => Raise (KeyError k)
  | (k', v) :: rest => if String.eqb k' k then Return v else dict_get k rest
  end.

(** [d[k] = v]: a key already there keeps its place, a new one goes last. *)
Fixpoint dict_set {V : Type} (k : string) (v : V) (d : dict V) : dict V :=
  match d with
  | [] => [(k, v)]
  | (k', v') :: rest =>
      if String.eqb k' k then (k', v) :: rest else (k', v') :: dict_set k v rest
  end.

(** [k in d] *)
Definition dict_has {V : Type} (k : string) (d : dict V) : bool :=
  existsb (fun kv => String.eqb (fst kv) k) d.

Section MkRoom.

(** The [Room] class of [.room] and its constructor [Room(self, room_id)],
    which may raise. *)
Variable room : Type.
Variable Room : string -> result room.

(** [_mkroom(self, room_id)]: what it returns (or raises) and [self.rooms]
    afterwards. *)
Definition _mkroom (rid : string) (rooms : dict room) : result room * dict room :=
  match Room rid with
  | Raise e => (Raise e, rooms)
  | Return r =>
      let rooms := dict_set rid r rooms in
      (dict_get rid rooms, rooms)
  end.

End MkRoom.

End Rooms.

(** ** Kinds of steps of a script *)

Module Scripts.

Import SyncLoop.

(** A step in which [_sync] raises an exception that goes to the handler
    [h], the handler returns, and nobody stops the loop. *)
Definition handled_step (h : option exception_handler_t) (s : sync_step) : bool :=
  match sync_result s, h with
  | Some e, Some f =>
      is_Exception e && negb (is_MatrixRequestError e) &&
      match f e with HReturns => true | HRaises _ => false end &&
      negb (stop s)
  | _, _ => false
  end.

(** A step in which [_sync] returns and nobody stops the loop. *)
Definition good_step (s : sync_step) : bool :=
  match sync_result s with
  | None => negb (stop s)
  | Some _ => false
  end.

(** The exception a handled step gives to the handler. *)
Definition handled_exception (h : option exception_handler_t) (s : sync_step) : list exc :=
  if handled_step h s then
    match sync_result s with Some e => [e] | None => [] end
  else [].

(** How many steps of a script are retried errors. *)
Definition count_transient (steps : list sync_step) : nat :=
  List.length (filter transient_step steps).

(** The delay the loop holds after [n] retried errors in a row, from [d]. *)
Definition delay_after (d limit : Z) (n : nat) : Z :=
  Nat.iter n (fun d => Z.min (d * 2) limit) d.

(** A list of delays that never goes down. *)
Fixpoint nondecreasing (l : list Z) : Prop :=
  match l with
  | [] => True
  | x :: rest =>
      match rest with
      | [] => True
      | y :: _ => x <= y /\ nondecreasing rest
      end
  end.

End Scripts.

(** * Properties *)

(** ** The sync loop *)

Import SyncLoop.

(** Splits the branches of one iteration: the status-code test, whether
    a handler is configured, and what the handler does. *)
Ltac iteration_cases :=
  repeat match goal with
         | |- context [if ?b then _ else _] => destruct b; cbn
         | |- context [match ?h with Some _ => _ | None => _ end] => destruct h; cbn
         | |- context [match ?o with HReturns => _ | HRaises _ => _ end] => destruct o; cbn
         end.

Section LoopFacts.

Variable timeout_ms : Z.
Variable exception_handler : option exception_handler_t.
Variable bad_sync_timeout : Z.

Local Abbreviation iteration :=
  (SyncLoop.iteration timeout_ms exception_handler bad_sync_timeout).
Local Abbreviation listen_loop :=
  (SyncLoop.listen_loop timeout_ms exception_handler bad_sync_timeout).

Lemma sleeps_app (t1 t2 : list event) : sleeps (t1 ++ t2) = (sleeps t1 ++ sleeps t2)%list.
Proof. unfold sleeps. now rewrite flat_map_app. Qed.

Lemma sync_calls_app (t1 t2 : list event) :
  sync_calls (t1 ++ t2) = (sync_calls t1 ++ sync_calls t2)%list.
Proof. unfold sync_calls. now rewrite flat_map_app. Qed.

Lemma handler_calls_app (t1 t2 : list event) :
  handler_calls (t1 ++ t2) = (handler_calls t1 ++ handler_calls t2)%list.
Proof. unfold handler_calls. now rewrite flat_map_app. Qed.

(** Every iteration calls [_sync] exactly once, first thing. *)
Lemma iteration_sync_calls (ev : sync_step) (st : loop_state) :
  sync_calls (trace (snd (iteration ev st))) = (sync_calls (trace st) ++ [timeout_ms])%list.
Proof.
  unfold SyncLoop.iteration.
  destruct (sync_result ev) as [e|]; [|cbn; now rewrite sync_calls_app].
  destruct e; cbn;
    iteration_cases;
    repeat rewrite sync_calls_app; cbn; repeat rewrite app_nil_r; reflexivity.
Qed.

(** No iteration touches [bad_sync_timeout_limit]. *)
Lemma iteration_limit (ev : sync_step) (st : loop_state) :
  bad_sync_timeout_limit (self (snd (iteration ev st))) = bad_sync_timeout_limit (self st).
Proof.
  unfold SyncLoop.iteration.
  destruct (sync_result ev) as [e|]; [|reflexivity].
  destruct e; cbn;
    iteration_cases; reflexivity.
Qed.

(** After an iteration the loop test sees what the environment left. *)
Lemma iteration_should_listen (ev : sync_step) (st : loop_state) :
  should_listen (self (snd (iteration ev st))) = should_listen (self st) && negb (stop ev).
Proof.
  unfold SyncLoop.iteration.
  destruct (sync_result ev) as [e|]; [|reflexivity].
  destruct e; cbn;
    iteration_cases; reflexivity.
Qed.

Lemma listen_loop_cons (ev : sync_step) (rest : list sync_step) (st : loop_state) :
  should_listen (self st) = true ->
  listen_loop (ev :: rest) st =
    match fst (iteration ev st) with
    | None => listen_loop rest (snd (iteration ev st))
    | Some e => (Raised e, snd (iteration ev st))
    end.
Proof.
  intros L. cbn [SyncLoop.listen_loop]. rewrite L.
  destruct (iteration ev st) as [[e|] st']; reflexivity.
Qed.

(** A run that is still pending after [pre] goes on with what follows. *)
Lemma listen_loop_app (pre rest : list sync_step) (st st' : loop_state) :
  listen_loop pre st = (Pending, st') ->
  listen_loop (pre ++ rest) st = listen_loop rest st'.
Proof.
  revert st. induction pre as [|ev pre IH]; intros st H.
  - cbn in H. destruct (should_listen (self st)) eqn:L; [|discriminate].
    now inversion H.
  - cbn [SyncLoop.listen_loop app] in *.
    destruct (should_listen (self st)); [|discriminate].
    destruct (iteration ev st) as [[e|] st1]; [discriminate|].
    now apply IH.
Qed.

(** A pending loop is one whose test succeeds. *)
Lemma pending_should_listen (pre : list sync_step) (st st' : loop_state) :
  listen_loop pre st = (Pending, st') -> should_listen (self st') = true.
Proof.
  revert st. induction pre as [|ev pre IH]; intros st H.
  - cbn in H. destruct (should_listen (self st)) eqn:L; [|discriminate].
    inversion H; subst; assumption.
  - cbn [SyncLoop.listen_loop] in H.
    destruct (should_listen (self st)); [|discriminate].
    destruct (iteration ev st) as [[e|] st1]; [discriminate|].
    now apply IH in H.
Qed.

(** A run that has ended stays ended, whatever follows in the script. *)
Lemma listen_loop_app_ended (pre rest : list sync_step) (st : loop_state) :
  fst (listen_loop pre st) <> Pending ->
  listen_loop (pre ++ rest) st = listen_loop pre st.
Proof.
  revert st. induction pre as [|ev pre IH]; intros st H.
  - cbn in *. destruct (should_listen (self st)) eqn:L; [now elim H|].
    destruct rest; cbn; rewrite L; reflexivity.
  - cbn [SyncLoop.listen_loop app] in *.
    destruct (should_listen (self st)); [|reflexivity].
    destruct (iteration ev st) as [[e|] st1]; [reflexivity|].
    now apply IH.
Qed.

(** If the run is pending after [pre ++ rest], it was pending after [pre]. *)
Lemma pending_prefix (pre rest : list sync_step) (st : loop_state) :
  fst (listen_loop (pre ++ rest) st) = Pending ->
  fst (listen_loop pre st) = Pending.
Proof.
  intros H. destruct (fst (listen_loop pre st)) eqn:E; [reflexivity| |];
    rewrite listen_loop_app_ended in H by (rewrite E; discriminate); congruence.
Qed.

(** A pending run made one [_sync] call per step of the script. *)
Lemma pending_sync_calls (pre : list sync_step) (st st' : loop_state) :
  listen_loop pre st = (Pending, st') ->
  sync_calls (trace st') = (sync_calls (trace st) ++ repeat timeout_ms (List.length pre))%list.
Proof.
  revert st. induction pre as [|ev pre IH]; intros st H.
  - cbn in H. destruct (should_listen (self st)); [|discriminate].
    inversion H; subst. cbn. now rewrite app_nil_r.
  - cbn [SyncLoop.listen_loop] in H.
    destruct (should_listen (self st)); [|discriminate].
    destruct (iteration ev st) as [[e|] st1] eqn:I; [discriminate|].
    apply IH in H. rewrite H.
    pose proof (iteration_sync_calls ev st) as S1. rewrite I in S1. cbn [snd] in S1.
    rewrite S1, <- app_assoc. reflexivity.
Qed.

(** The run never touches [bad_sync_timeout_limit]. *)
Lemma listen_loop_limit (script : list sync_step) (st : loop_state) :
  bad_sync_timeout_limit (self (snd (listen_loop script st))) =
  bad_sync_timeout_limit (self st).
Proof.
  revert st. induction script as [|ev rest IH]; intros st.
  - cbn. destruct (should_listen (self st)); reflexivity.
  - cbn [SyncLoop.listen_loop].
    destruct (should_listen (self st)); [|reflexivity].
    pose proof (iteration_limit ev st) as Hl.
    destruct (iteration ev st) as [[e|] st1]; cbn [snd] in *; [assumption|].
    now rewrite IH.
Qed.

(** An iteration whose [_sync] raises a [MatrixRequestError]. *)
Lemma iteration_request_error (ev : sync_step) (st : loop_state) (code : Z) (content : string) :
  sync_result ev = Some (MatrixRequestError code content) ->
  iteration ev st =
    let st1 := emit [EWarning "A MatrixRequestError occured during sync."]
                 (env_stop (stop ev) (emit [ESync timeout_ms] st)) in
    if 500 <=? code then
      (None, set_delay (Z.min (_bad_sync_timeout st * 2) (bad_sync_timeout_limit (self st)))
               (emit [EWarningWait (_bad_sync_timeout st); ESleep (_bad_sync_timeout st)] st1))
    else (Some (MatrixRequestError code content), st1).
Proof.
  intros R. unfold SyncLoop.iteration. rewrite R. cbn.
  rewrite Z.geb_leb. destruct (500 <=? code); reflexivity.
Qed.

(** An iteration whose [_sync] returns. *)
Lemma iteration_success (ev : sync_step) (st : loop_state) :
  sync_result ev = None ->
  iteration ev st =
    (None, set_delay bad_sync_timeout (env_stop (stop ev) (emit [ESync timeout_ms] st))).
Proof. intros R. unfold SyncLoop.iteration. now rewrite R. Qed.

End LoopFacts.

(** C1: a [MatrixRequestError] raised by [_sync] with a status code of at
    least 500 does not leave the loop: the loop sleeps for the current
    backoff delay, the handler is not called, and the run goes on with the
    loop test and the next iteration.  With a status code below 500 the
    error leaves [listen_forever] at once, whatever follows in the script
    and whether or not a handler is configured: no sleep, no handler call,
    no further iteration. *)
Theorem C1_status_code_decides_retry_or_raise :
  forall (timeout_ms : Z) (exception_handler : option exception_handler_t)
         (bad_sync_timeout : Z) (ev : sync_step) (rest : list sync_step)
         (st : loop_state) (code : Z) (content : string),
    should_listen (self st) = true ->
    sync_result ev = Some (MatrixRequestError code content) ->
    let st' := snd (iteration timeout_ms exception_handler bad_sync_timeout ev st) in
    sync_calls (trace st') = (sync_calls (trace st) ++ [timeout_ms])%list /\
    handler_calls (trace st') = handler_calls (trace st) /\
    if 500 <=? code then
      sleeps (trace st') = (sleeps (trace st) ++ [_bad_sync_timeout st])%list /\
      should_listen (self st') = negb (stop ev) /\
      listen_loop timeout_ms exception_handler bad_sync_timeout (ev :: rest) st =
        listen_loop timeout_ms exception_handler bad_sync_timeout rest st'
    else
      sleeps (trace st') = sleeps (trace st) /\
      listen_loop timeout_ms exception_handler bad_sync_timeout (ev :: rest) st =
        (Raised (MatrixRequestError code content), st').
Proof.
  intros t h base ev rest st code content L R st'.
  split; [apply iteration_sync_calls|].
  subst st'. rewrite (listen_loop_cons _ _ _ _ _ _ L).
  rewrite (iteration_request_error _ _ _ _ _ _ _ R). cbv zeta.
  destruct (500 <=? code); cbn [fst snd].
  - cbn. rewrite !handler_calls_app, !sleeps_app. cbn. rewrite !app_nil_r, L.
    repeat split; reflexivity.
  - cbn. rewrite !handler_calls_app, !sleeps_app. cbn. rewrite !app_nil_r.
    repeat split; reflexivity.
Qed.

(** C1 at a 503 (retried after a 5 second sleep) and at a 401 with a handler
    configured (raised, handler not called). *)
Lemma C1_witness :
  let st := mkState (set_should_listen true (init None 3600)) 5 [] in
  let e503 := mkStep (Some (MatrixRequestError 503 "")) false in
  let e401 := mkStep (Some (MatrixRequestError 401 "")) false in
  let h := Some (fun _ : exc => HReturns) in
  should_listen (self st) = true /\
  sync_result e503 = Some (MatrixRequestError 503 "") /\
  sync_result e401 = Some (MatrixRequestError 401 "") /\
  sleeps (trace (snd (iteration 30000 None 5 e503 st))) = [5] /\
  listen_loop 30000 None 5 [e503] st = (Pending, snd (iteration 30000 None 5 e503 st)) /\
  handler_calls (trace (snd (iteration 30000 h 5 e401 st))) = [] /\
  listen_loop 30000 h 5 [e401; mkStep None false] st =
    (Raised (MatrixRequestError 401 ""), snd (iteration 30000 h 5 e401 st)).
Proof.
  intros st e503 e401 h.
  pose proof (C1_status_code_decides_retry_or_raise 30000 None 5 e503 [] st
                503 "" eq_refl eq_refl) as [_ [_ [Hs [_ Hl]]]].
  pose proof (C1_status_code_decides_retry_or_raise 30000 h 5 e401 [mkStep None false] st
                401 "" eq_refl eq_refl) as [_ [Hh [_ Hr]]].
  exact (conj eq_refl (conj eq_refl (conj eq_refl
           (conj Hs (conj Hl (conj Hh Hr)))))).
Defined.




(** Without a handler no handler is called. *)
Lemma no_handler_no_calls (timeout_ms bad_sync_timeout : Z)
  (script : list sync_step) (st : loop_state) :
  handler_calls (trace (snd (listen_loop timeout_ms None bad_sync_timeout script st))) =
  handler_calls (trace st).
Proof.
  revert st. induction script as [|ev rest IH]; intros st.
  - cbn. destruct (should_listen (self st)); reflexivity.
  - cbn [listen_loop]. destruct (should_listen (self st)); [|reflexivity].
    assert (I : handler_calls (trace (snd (iteration timeout_ms None bad_sync_timeout ev st)))
                = handler_calls (trace st)).
    { unfold iteration. destruct (sync_result ev) as [e|].
      - destruct e; cbn;
          iteration_cases;
          rewrite !handler_calls_app; cbn; rewrite ?app_nil_r; reflexivity.
      - cbn. rewrite handler_calls_app. cbn. now rewrite app_nil_r. }
    destruct (iteration timeout_ms None bad_sync_timeout ev st) as [[e|] st1];
      cbn [snd] in *; [assumption|].
    now rewrite IH.
Qed.

(** An iteration whose [_sync] raises an error that is not retried, with no
    handler: the error leaves the [try] statement and nothing sleeps. *)
Lemma iteration_fatal_no_handler (timeout_ms bad_sync_timeout : Z)
  (ev : sync_step) (st : loop_state) (e : exc) :
  sync_result ev = Some e ->
  is_transient e = false ->
  fst (iteration timeout_ms None bad_sync_timeout ev st) = Some e /\
  sleeps (trace (snd (iteration timeout_ms None bad_sync_timeout ev st))) = sleeps (trace st).
Proof.
  intros R T. unfold iteration. rewrite R.
  destruct e; cbn in *; try rewrite Z.geb_leb, T; cbn;
    rewrite !sleeps_app; cbn; rewrite ?app_nil_r; split; reflexivity.
Qed.

(** C5: when [_sync] raises an error that is not retried (a 401, any other
    exception) and no handler is configured, that error leaves
    [listen_forever]: the run ends there whatever the script holds next,
    having called [_sync] once per iteration up to and including the
    failing one, and without a further sleep. *)
Theorem C5_unhandled_fatal_error_ends_the_loop :
  forall (timeout_ms bad_sync_timeout : Z) (c : GMatrixClient)
         (pre : list sync_step) (ev : sync_step) (rest : list sync_step) (e : exc),
    fst (listen_forever timeout_ms None bad_sync_timeout c pre) = Pending ->
    sync_result ev = Some e ->
    is_transient e = false ->
    let before := snd (listen_forever timeout_ms None bad_sync_timeout c pre) in
    let r := listen_forever timeout_ms None bad_sync_timeout c (pre ++ ev :: rest) in
    fst r = Raised e /\
    sync_calls (trace (snd r)) = repeat timeout_ms (S (List.length pre)) /\
    sleeps (trace (snd r)) = sleeps (trace before) /\
    handler_calls (trace (snd r)) = [].
Proof.
  intros t base c pre ev rest e P R T before r.
  assert (H0 : handler_calls (trace (snd r)) = [])
    by (subst r; unfold listen_forever; now rewrite no_handler_no_calls).
  subst before r. unfold listen_forever in *.
  set (st0 := mkState (set_should_listen true c) base []) in *.
  destruct (listen_loop t None base pre st0) as [s st] eqn:E. cbn [fst snd] in *. subst s.
  rewrite (listen_loop_app _ _ _ _ _ _ _ E) in *.
  pose proof (pending_should_listen _ _ _ _ _ _ E) as L.
  pose proof (pending_sync_calls _ _ _ _ _ _ E) as S1.
  rewrite (listen_loop_cons _ _ _ _ _ _ L) in *.
  destruct (iteration_fatal_no_handler t base ev st e R T) as [F Sl].
  pose proof (iteration_sync_calls t None base ev st) as S2.
  rewrite F in *. cbn [fst snd] in *.
  repeat split; try assumption.
  rewrite S2, S1. cbn [trace sync_calls flat_map app repeat].
  now rewrite repeat_cons.
Qed.

(** C5 at a 401 after one good sync, with more of the script to come. *)
Lemma C5_witness :
  let pre := [mkStep None false] in
  let ev := mkStep (Some (MatrixRequestError 401 "")) false in
  let rest := [mkStep None false; mkStep None false] in
  let r := listen_forever 30000 None 5 (init None 3600) (pre ++ ev :: rest) in
  fst (listen_forever 30000 None 5 (init None 3600) pre) = Pending /\
  is_transient (MatrixRequestError 401 "") = false /\
  fst r = Raised (MatrixRequestError 401 "") /\
  sync_calls (trace (snd r)) = [30000; 30000].
Proof.
  intros pre ev rest r.
  pose proof (C5_unhandled_fatal_error_ends_the_loop 30000 5 (init None 3600)
                pre ev rest (MatrixRequestError 401 "") eq_refl eq_refl eq_refl)
    as [Hr [Hs _]].
  exact (conj eq_refl (conj eq_refl (conj Hr Hs))).
Defined.

(** The delay after an iteration whose [_sync] returned. *)
Lemma delay_after_success (timeout_ms : Z) (h : option exception_handler_t)
  (bad_sync_timeout : Z) (pre : list sync_step) (ev : sync_step) (st : loop_state) :
  fst (listen_loop timeout_ms h bad_sync_timeout pre st) = Pending ->
  sync_result ev = None ->
  _bad_sync_timeout (snd (listen_loop timeout_ms h bad_sync_timeout (pre ++ [ev]) st))
  = bad_sync_timeout.
Proof.
  intros P R.
  destruct (listen_loop timeout_ms h bad_sync_timeout pre st) as [s st1] eqn:E.
  cbn [fst] in P. subst s.
  rewrite (listen_loop_app _ _ _ _ _ _ _ E).
  rewrite (listen_loop_cons _ _ _ _ _ _ (pending_should_listen _ _ _ _ _ _ E)).
  rewrite (iteration_success _ _ _ _ _ R). cbn [fst snd listen_loop].
  match goal with |- context [if ?b then _ else _] => destruct b end; reflexivity.
Qed.

(** C4: whatever happened before (any script that leaves the loop alive),
    once an iteration's [_sync] returns, the backoff delay is the base value
    [bad_sync_timeout] again. *)
Theorem C4_success_resets_the_delay :
  forall (timeout_ms : Z) (exception_handler : option exception_handler_t)
         (bad_sync_timeout : Z) (c : GMatrixClient)
         (pre : list sync_step) (ev : sync_step),
    fst (listen_forever timeout_ms exception_handler bad_sync_timeout c pre) = Pending ->
    sync_result ev = None ->
    _bad_sync_timeout
      (snd (listen_forever timeout_ms exception_handler bad_sync_timeout c (pre ++ [ev])))
    = bad_sync_timeout.
Proof.
  intros t h base c pre ev P R. unfold listen_forever in *.
  now apply delay_after_success.
Qed.

(** C4 on the scenario of the specification: three 503 answers (the delay
    has grown to 40) and then a success. *)
Lemma C4_witness :
  let e503 := mkStep (Some (MatrixRequestError 503 "")) false in
  let c := init None 80 in
  fst (listen_forever 30000 None 5 c [e503; e503; e503]) = Pending /\
  _bad_sync_timeout (snd (listen_forever 30000 None 5 c [e503; e503; e503])) = 40 /\
  _bad_sync_timeout
    (snd (listen_forever 30000 None 5 c ([e503; e503; e503] ++ [mkStep None false]))) = 5.
Proof.
  intros e503 c.
  exact (conj eq_refl (conj eq_refl
           (C4_success_resets_the_delay 30000 None 5 c [e503; e503; e503]
              (mkStep None false) eq_refl eq_refl))).
Defined.

(** One iteration keeps the delay within the bounds and sleeps only for
    delays within the bounds. *)
Lemma iteration_bounds (timeout_ms : Z) (h : option exception_handler_t)
  (base : Z) (ev : sync_step) (st : loop_state) (limit : Z) :
  0 < base -> base <= limit ->
  bad_sync_timeout_limit (self st) = limit ->
  base <= _bad_sync_timeout st <= limit ->
  Forall (fun d => base <= d <= limit) (sleeps (trace st)) ->
  let st' := snd (iteration timeout_ms h base ev st) in
  base <= _bad_sync_timeout st' <= limit /\
  Forall (fun d => base <= d <= limit) (sleeps (trace st')).
Proof.
  intros B BL Lim D F st'. subst st'. unfold iteration.
  destruct (sync_result ev) as [e|].
  - destruct e; cbn;
      iteration_cases;
      rewrite ?sleeps_app; cbn; rewrite ?app_nil_r;
      (split; [try lia | try assumption]).
    apply Forall_app. split; [assumption|]. constructor; [lia|constructor].
  - cbn. rewrite sleeps_app. cbn. rewrite app_nil_r. split; [lia|assumption].
Qed.

Lemma listen_loop_bounds (timeout_ms : Z) (h : option exception_handler_t)
  (base : Z) (script : list sync_step) (limit : Z) :
  0 < base -> base <= limit ->
  forall st : loop_state,
    bad_sync_timeout_limit (self st) = limit ->
    base <= _bad_sync_timeout st <= limit ->
    Forall (fun d => base <= d <= limit) (sleeps (trace st)) ->
    let st' := snd (listen_loop timeout_ms h base script st) in
    base <= _bad_sync_timeout st' <= limit /\
    Forall (fun d => base <= d <= limit) (sleeps (trace st')).
Proof.
  intros B BL. induction script as [|ev rest IH]; intros st Lim D F.
  - cbn. destruct (should_listen (self st)); cbn; auto.
  - cbn [listen_loop]. destruct (should_listen (self st)); [|cbn; auto].
    pose proof (iteration_bounds timeout_ms h base ev st limit B BL Lim D F) as [D1 F1].
    pose proof (iteration_limit timeout_ms h base ev st) as L1.
    destruct (iteration timeout_ms h base ev st) as [[e|] st1]; cbn [snd] in *; [auto|].
    apply IH; [congruence|assumption|assumption].
Qed.

(** C6: when the base delay is positive and at most the limit, every delay
    [listen_forever] sleeps for lies between the base and the limit, and so
    does the delay it holds when the run is observed. *)
Theorem C6_every_sleep_within_base_and_limit :
  forall (timeout_ms : Z) (exception_handler : option exception_handler_t)
         (bad_sync_timeout : Z) (c : GMatrixClient) (script : list sync_step),
    0 < bad_sync_timeout ->
    bad_sync_timeout <= bad_sync_timeout_limit c ->
    let st := snd (listen_forever timeout_ms exception_handler bad_sync_timeout c script) in
    Forall (fun d => bad_sync_timeout <= d <= bad_sync_timeout_limit c) (sleeps (trace st)) /\
    bad_sync_timeout <= _bad_sync_timeout st <= bad_sync_timeout_limit c.
Proof.
  intros t h base c script B BL st. subst st. unfold listen_forever.
  destruct (listen_loop_bounds t h base script (bad_sync_timeout_limit c) B BL
              (mkState (set_should_listen true c) base [])) as [D F];
    cbn; try lia; auto.
Qed.

(** C6 with base 5 and limit 80 over six 503 answers: the sleeps are
    5, 10, 20, 40, 80, 80. *)
Lemma C6_witness :
  let e503 := mkStep (Some (MatrixRequestError 503 "")) false in
  let script := [e503; e503; e503; e503; e503; e503] in
  let st := snd (listen_forever 30000 None 5 (init None 80) script) in
  0 < 5 /\ 5 <= 80 /\
  sleeps (trace st) = [5; 10; 20; 40; 80; 80] /\
  Forall (fun d => 5 <= d <= 80) (sleeps (trace st)).
Proof.
  intros e503 script st.
  assert (H1 : 0 < 5) by lia.
  assert (H2 : 5 <= 80) by lia.
  pose proof (C6_every_sleep_within_base_and_limit 30000 None 5 (init None 80) script
                H1 H2) as [F _].
  exact (conj H1 (conj H2 (conj eq_refl F))).
Defined.

(** A pending run that is fresh or just reset holds the base delay. *)
Lemma fresh_or_reset_delay (timeout_ms : Z) (h : option exception_handler_t)
  (base : Z) (c : GMatrixClient) (pre : list sync_step) :
  fresh_or_reset pre = true ->
  fst (listen_forever timeout_ms h base c pre) = Pending ->
  _bad_sync_timeout (snd (listen_forever timeout_ms h base c pre)) = base.
Proof.
  unfold fresh_or_reset. intros FR P.
  destruct (rev pre) as [|s tl] eqn:E.
  - apply (f_equal (@rev _)) in E. rewrite rev_involutive in E. subst pre. reflexivity.
  - apply (f_equal (@rev _)) in E. rewrite rev_involutive in E. cbn in E. subst pre.
    destruct (sync_result s) eqn:R; [discriminate|].
    unfold listen_forever in *.
    apply delay_after_success; [|assumption].
    now apply pending_prefix in P.
Qed.

(** A stretch of retried errors: the loop stays alive and sleeps for the
    delays it computes one from the other. *)
Lemma transient_run (timeout_ms : Z) (h : option exception_handler_t) (base : Z)
  (fails : list sync_step) :
  forall st : loop_state,
    should_listen (self st) = true ->
    forallb transient_step fails = true ->
    fst (listen_loop timeout_ms h base fails st) = Pending /\
    sleeps (trace (snd (listen_loop timeout_ms h base fails st))) =
      (sleeps (trace st) ++
       delays_from (_bad_sync_timeout st) (bad_sync_timeout_limit (self st))
         (List.length fails))%list.
Proof.
  induction fails as [|ev rest IH]; intros st L F.
  - cbn. rewrite L. cbn. now rewrite app_nil_r.
  - cbn [forallb] in F. apply andb_true_iff in F as [T F].
    unfold transient_step in T.
    destruct (sync_result ev) as [e|] eqn:R; [|discriminate].
    apply andb_true_iff in T as [T S]. apply negb_true_iff in S.
    destruct e; try discriminate. cbn in T.
    rewrite (listen_loop_cons _ _ _ _ _ _ L).
    rewrite (iteration_request_error _ _ _ _ _ _ _ R). cbv zeta.
    rewrite T. cbn [fst snd].
    match goal with
    | |- context [listen_loop _ _ _ rest ?s] => specialize (IH s)
    end.
    destruct IH as [P Sl]; [cbn; now rewrite L, S | assumption |].
    split; [assumption|].
    rewrite Sl. cbn. rewrite !sleeps_app. cbn. rewrite !app_nil_r, <- app_assoc.
    reflexivity.
Qed.

(** With a limit that is not negative, the delays the loop computes are the
    ones the specification lists. *)
Lemma delays_from_backoff (base limit : Z) (n : nat) :
  0 <= limit ->
  delays_from base limit n = backoff_delays base limit n.
Proof.
  intros L.
  assert (A : forall n k, delays_from (backoff_delay base limit (S k)) limit n =
                          map (backoff_delay base limit) (seq (S k) n)).
  { clear n. induction n as [|n IH]; intros k; [reflexivity|].
    cbn [delays_from seq map]. f_equal.
    rewrite <- IH. f_equal.
    unfold backoff_delay.
    replace (Z.of_nat (S (S k))) with (Z.succ (Z.of_nat (S k))) by lia.
    rewrite Z.pow_succ_r by lia. lia. }
  destruct n as [|n]; [reflexivity|].
  unfold backoff_delays. cbn [delays_from seq map]. f_equal.
  rewrite <- A. reflexivity.
Qed.

(** C3: from a backoff that is fresh or just reset, [N] consecutive retried
    errors (status at least 500) make the loop sleep for exactly
    [base, min(base*2, limit), min(base*4, limit), ...], [N] delays in all,
    the limit being a duration, that is, not negative; the loop is still
    alive afterwards. *)
Theorem C3_consecutive_transient_failures_back_off :
  forall (timeout_ms : Z) (exception_handler : option exception_handler_t)
         (bad_sync_timeout : Z) (c : GMatrixClient)
         (pre fails : list sync_step),
    0 <= bad_sync_timeout_limit c ->
    fresh_or_reset pre = true ->
    fst (listen_forever timeout_ms exception_handler bad_sync_timeout c pre) = Pending ->
    forallb transient_step fails = true ->
    let before := snd (listen_forever timeout_ms exception_handler bad_sync_timeout c pre) in
    let r := listen_forever timeout_ms exception_handler bad_sync_timeout c (pre ++ fails) in
    fst r = Pending /\
    sleeps (trace (snd r)) =
      (sleeps (trace before) ++
       backoff_delays bad_sync_timeout (bad_sync_timeout_limit c) (List.length fails))%list.
Proof.
  intros t h base c pre fails L FR P T before r. subst before r.
  pose proof (fresh_or_reset_delay t h base c pre FR P) as D.
  unfold listen_forever in *.
  set (st0 := mkState (set_should_listen true c) base []) in *.
  pose proof (listen_loop_limit t h base pre st0) as Lim.
  destruct (listen_loop t h base pre st0) as [s st] eqn:E. cbn [fst snd] in *. subst s.
  rewrite (listen_loop_app _ _ _ _ _ _ _ E).
  destruct (transient_run t h base fails st (pending_should_listen _ _ _ _ _ _ E) T)
    as [P1 S1].
  split; [assumption|].
  rewrite S1, D, Lim. cbn [st0 self set_should_listen bad_sync_timeout_limit].
  f_equal. now apply delays_from_backoff.
Qed.

(** C3 on the scenario of the specification: base 5, limit 80, three 503
    answers from a fresh loop give sleeps of 5, 10 and 20; the same again
    right after a success. *)
Lemma C3_witness :
  let e503 := mkStep (Some (MatrixRequestError 503 "")) false in
  let ok := mkStep None false in
  let c := init None 80 in
  0 <= bad_sync_timeout_limit c /\
  sleeps (trace (snd (listen_forever 30000 None 5 c ([] ++ [e503; e503; e503]))))
    = [5; 10; 20] /\
  sleeps (trace (snd (listen_forever 30000 None 5 c
                        ([e503; e503; ok] ++ [e503; e503; e503]))))
    = [5; 10; 5; 10; 20].
Proof.
  intros e503 ok c.
  assert (H : 0 <= bad_sync_timeout_limit c) by (cbn; lia).
  pose proof (C3_consecutive_transient_failures_back_off 30000 None 5 c
                [] [e503; e503; e503] H eq_refl eq_refl eq_refl) as [_ S1].
  pose proof (C3_consecutive_transient_failures_back_off 30000 None 5 c
                [e503; e503; ok] [e503; e503; e503] H eq_refl eq_refl eq_refl) as [_ S2].
  exact (conj H (conj S1 S2)).
Defined.

(** Why the limit must not be negative for the listed delays: below zero
    the loop keeps doubling the (negative) limit instead of staying at it. *)
Example delays_under_negative_limit :
  delays_from 5 (-1) 3 = [5; -1; -2] /\ backoff_delays 5 (-1) 3 = [5; -1; -1].
Proof. split; reflexivity. Qed.

(** ** The background runner *)

Import Runner.

(** C7 fails: a second [start_listener_thread] on a client whose listener
    greenlet was just spawned is neither an error nor a no-op.  It returns a
    different world, with two listener greenlets in the hub; [sync_thread]
    refers to the second only, and each of the two, once scheduled, runs its
    own sync loop on the client. *)
Lemma C7_counterexample :
  let w0 := mkWorld (init None 3600) [] in
  let w1 := start_listener_thread default_timeout_ms None w0 in
  let w2 := start_listener_thread default_timeout_ms None w1 in
  let ok := mkStep None false in
  w2 <> w1 /\
  List.length (hub w1) = 1%nat /\
  List.length (hub w2) = 2%nat /\
  map g_id (hub w2) = [0%nat; 1%nat] /\
  option_map g_id (sync_thread (client w2)) = Some 1%nat /\
  Forall (fun g => fst (run g (client w2) [ok; ok]) = SyncLoop.Pending /\
                   sync_calls (trace (snd (run g (client w2) [ok; ok])))
                   = [30000; 30000]) (hub w2).
Proof.
  cbv zeta. split; [|split; [|split; [|split; [|split]]]]; try reflexivity.
  - intros H. apply (f_equal (fun w => List.length (hub w))) in H. discriminate H.
  - repeat constructor.
Qed.

(** C7, amended: [start_listener_thread] always sets [should_listen], spawns
    one more greenlet running [listen_forever] with the given arguments, and
    makes [sync_thread] refer to it, whether or not an earlier listener
    greenlet is still in the hub; the greenlets spawned before stay where
    they were. *)
Theorem C7_every_start_spawns_a_new_listener :
  forall (timeout_ms : Z) (exception_handler : option exception_handler_t) (w : world),
    let w' := start_listener_thread timeout_ms exception_handler w in
    let g := mkGreenlet (List.length (hub w)) timeout_ms exception_handler in
    should_listen (client w') = true /\
    sync_thread (client w') = Some g /\
    hub w' = (hub w ++ [g])%list /\
    List.length (hub w') = S (List.length (hub w)).
Proof.
  intros t h w. cbn. repeat split.
  rewrite length_app. cbn. lia.
Qed.

(** ** The user directory *)

Import Directory.

Section DirectoryFacts.

Variable user : Type.
Variable User : json -> json -> result user.

(** The comprehension returns exactly when every element does, with one
    user per item, in order. *)
Lemma users_of_all_return (items : list json) (us : list user) :
  Forall2 (fun item u => user_of user User item = Return u) items us ->
  users_of user User items = Return us.
Proof.
  induction 1 as [|item u items us H _ IH]; [reflexivity|].
  cbn [users_of]. rewrite H. cbn. rewrite IH. reflexivity.
Qed.

(** The comprehension raises what its first failing element raises. *)
Lemma users_of_first_raise (good : list json) (us : list user) (bad : json)
  (rest : list json) (e : exc) :
  Forall2 (fun item u => user_of user User item = Return u) good us ->
  user_of user User bad = Raise e ->
  users_of user User (good ++ bad :: rest) = Raise e.
Proof.
  induction 1 as [|item u items us' H _ IH]; intros B.
  - cbn. rewrite B. reflexivity.
  - cbn [users_of app]. rewrite H. cbn. rewrite (IH B). reflexivity.
Qed.

End DirectoryFacts.

(** C8 fails for a [results] field that is malformed other than by a
    missing key: for the body [{"results": null}] the function raises
    [TypeError], which [except KeyError] does not catch; likewise for a
    [results] list whose item is not an object. *)
Lemma C8_counterexample :
  search_user_directory plain_user plain_User
    (answering (JObj [("results", JNull)])) "alice"
  = Raise (TypeError "'NoneType' object is not iterable") /\
  search_user_directory plain_user plain_User
    (answering (JObj [("results", JArr [JStr "@alice:example.org"])])) "alice"
  = Raise (TypeError "string indices must be integers").
Proof. split; reflexivity. Qed.

(** C8, amended: for a response object (1) without a [results] key the
    function returns the empty list and raises nothing; (2) the same when
    [results] is a list in which, after records that each yield a user, a
    record lacks [user_id] or [display_name] (the element raises
    [KeyError]); (3) when [results] is a list of records that each yield a
    user, it returns those users, one per record and in order; (4) when
    [results] is null, a boolean or a number, the function raises
    [TypeError]; (5) so it does when [results] is a list in which, after
    records that each yield a user, an item is not an object. *)
Theorem C8_missing_keys_give_empty_list_else_one_user_per_record :
  forall (user : Type) (User : json -> json -> result user)
         (_send : request -> result json) (term : string)
         (fields : list (string * json)),
    _send (mkRequest "POST" "/user_directory/search"
             (Some (JObj [("search_term", JStr term)]))) = Return (JObj fields) ->
    (lookup "results" fields = None ->
     search_user_directory user User _send term = Return []) /\
    (forall (good : list json) (us : list user) (bad : json) (rest : list json) (k : string),
        lookup "results" fields = Some (JArr (good ++ bad :: rest)) ->
        Forall2 (fun item u => user_of user User item = Return u) good us ->
        user_of user User bad = Raise (KeyError k) ->
        search_user_directory user User _send term = Return []) /\
    (forall (items : list json) (us : list user),
        lookup "results" fields = Some (JArr items) ->
        Forall2 (fun item u => user_of user User item = Return u) items us ->
        search_user_directory user User _send term = Return us /\
        List.length us = List.length items) /\
    (forall results : json,
        lookup "results" fields = Some results ->
        match results with JNull | JBool _ | JNum _ => true | _ => false end = true ->
        exists msg : string,
          search_user_directory user User _send term = Raise (TypeError msg)) /\
    (forall (good : list json) (us : list user) (bad : json) (rest : list json),
        lookup "results" fields = Some (JArr (good ++ bad :: rest)) ->
        Forall2 (fun item u => user_of user User item = Return u) good us ->
        match bad with JObj _ => false | _ => true end = true ->
        exists msg : string,
          search_user_directory user User _send term = Raise (TypeError msg)).
Proof.
  intros user User _send term fields S.
  unfold search_user_directory. rewrite S. cbn [bind].
  unfold users_of_response. cbn [getitem].
  split; [|split; [|split; [|split]]].
  - intros L. rewrite L. reflexivity.
  - intros good us bad rest k L G B. rewrite L. cbn [bind iter].
    rewrite (users_of_first_raise user User good us bad rest _ G B). reflexivity.
  - intros items us L G. rewrite L. cbn [bind iter].
    rewrite (users_of_all_return user User items us G).
    split; [reflexivity|]. symmetry. exact (Forall2_length G).
  - intros results L N. rewrite L.
    destruct results; try discriminate; cbn; eexists; reflexivity.
  - intros good us bad rest L G N. rewrite L. cbn [bind iter].
    assert (B : exists msg, user_of user User bad = Raise (TypeError msg))
      by (destruct bad; try discriminate; cbn; eexists; reflexivity).
    destruct B as [msg B]. exists msg.
    rewrite (users_of_first_raise user User good us bad rest _ G B). reflexivity.
Qed.

(** C8 amended, on the empty object, on a list whose second record has no
    [display_name], on a list of two complete records, on a number for
    [results], and on a list whose second item is a string. *)
Lemma C8_witness :
  let alice := JObj [("user_id", JStr "@alice:example.org");
                     ("display_name", JStr "Alice");
                     ("avatar_url", JNull)] in
  let bob := JObj [("display_name", JStr "Bob"); ("user_id", JStr "@bob:example.org")] in
  let anon := JObj [("user_id", JStr "@anon:example.org")] in
  let search body := search_user_directory plain_user plain_User (answering body) "a" in
  search (JObj []) = Return [] /\
  search (JObj [("results", JArr ([alice] ++ anon :: [bob]))]) = Return [] /\
  search (JObj [("results", JArr [alice; bob])]) =
    Return [mkUser (JStr "@alice:example.org") (JStr "Alice");
            mkUser (JStr "@bob:example.org") (JStr "Bob")] /\
  (exists msg, search (JObj [("results", JNum 3)]) = Raise (TypeError msg)) /\
  (exists msg, search (JObj [("results", JArr ([alice] ++ JStr "@bob:example.org" :: []))])
               = Raise (TypeError msg)).
Proof.
  intros alice bob anon search.
  pose proof (C8_missing_keys_give_empty_list_else_one_user_per_record
                plain_user plain_User (answering (JObj [])) "a" [] eq_refl)
    as [H1 _].
  pose proof (C8_missing_keys_give_empty_list_else_one_user_per_record
                plain_user plain_User
                (answering (JObj [("results", JArr ([alice] ++ anon :: [bob]))])) "a"
                _ eq_refl)
    as [_ [H2 _]].
  pose proof (C8_missing_keys_give_empty_list_else_one_user_per_record
                plain_user plain_User
                (answering (JObj [("results", JArr [alice; bob])])) "a"
                _ eq_refl)
    as [_ [_ [H3 _]]].
  pose proof (C8_missing_keys_give_empty_list_else_one_user_per_record
                plain_user plain_User
                (answering (JObj [("results", JNum 3)])) "a"
                _ eq_refl)
    as [_ [_ [_ [H4 _]]]].
  pose proof (C8_missing_keys_give_empty_list_else_one_user_per_record
                plain_user plain_User
                (answering (JObj [("results",
                                   JArr ([alice] ++ JStr "@bob:example.org" :: []))])) "a"
                _ eq_refl)
    as [_ [_ [_ [_ H5]]]].
  refine (conj (H1 eq_refl)
            (conj (H2 [alice] _ anon [bob] "display_name" eq_refl _ eq_refl)
               (conj (proj1 (H3 [alice; bob] _ eq_refl _))
                  (conj (H4 (JNum 3) eq_refl eq_refl)
                     (H5 [alice] _ (JStr "@bob:example.org") [] eq_refl _ eq_refl))))).
  - constructor; [reflexivity | constructor].
  - constructor; [reflexivity | constructor; [reflexivity | constructor]].
  - constructor; [reflexivity | constructor].
Defined.

(** ** Listener registration *)

Import Listeners.

(** C9: each of the five registration methods appends exactly one entry to
    the registry, under its own category, and the callable of that entry is
    [geventify_callback callback], not [callback]; so after any sequence of
    registration calls the entries added are, in order, the wrappers of the
    callables passed in. *)
Theorem C9_every_registration_wraps_the_callback :
  forall (geventify_callback : callback -> callback) (cb : callback)
         (event_type : option string) (rs : list registration) (c : GMatrixClient),
    listeners (add_invite_listener geventify_callback cb c) =
      (listeners c ++ [mkEntry Invite (geventify_callback cb) None])%list /\
    listeners (add_leave_listener geventify_callback cb c) =
      (listeners c ++ [mkEntry Leave (geventify_callback cb) None])%list /\
    listeners (add_presence_listener geventify_callback cb c) =
      (listeners c ++ [mkEntry Presence (geventify_callback cb) None])%list /\
    listeners (add_listener geventify_callback cb event_type c) =
      (listeners c ++ [mkEntry Generic (geventify_callback cb) event_type])%list /\
    listeners (add_ephemeral_listener geventify_callback cb event_type c) =
      (listeners c ++ [mkEntry Ephemeral (geventify_callback cb) event_type])%list /\
    map le_callback (listeners (perform_all geventify_callback rs c)) =
      (map le_callback (listeners c) ++
       map (fun r => geventify_callback (raw_callback r)) rs)%list.
Proof.
  intros g cb et rs c.
  do 5 (split; [reflexivity|]).
  revert c. induction rs as [|r rs IH]; intros c.
  - cbn. now rewrite app_nil_r.
  - unfold perform_all in *. cbn [fold_left map]. rewrite IH.
    destruct r; cbn; rewrite map_app, <- app_assoc; reflexivity.
Qed.

(** ** The presence list *)

Import Presence.

(** C10: on a client that has a user id, [modify_presence_list] sends one
    POST to the presence-list endpoint of that user whose body holds, under
    ['invite'] and under ['drop'], the list given for [add_user_ids] and for
    [remove_user_ids] as it is, and the empty list (not null) for the one
    that was omitted. *)
Theorem C10_omitted_id_lists_are_sent_as_empty_lists :
  forall (quote : string -> string) (_send : request -> result json)
         (c : GMatrixClient) (u : string)
         (add_user_ids remove_user_ids : option (list string)),
    user_id c = Some u ->
    let sent (given : option (list string)) : json :=
      match given with
      | None => JArr []
      | Some l => JArr (map JStr l)
      end in
    let body := JObj [("invite", sent add_user_ids); ("drop", sent remove_user_ids)] in
    let req := mkRequest "POST" ("/presence/list/" ++ quote u) (Some body) in
    presence_list_request quote c add_user_ids remove_user_ids = Return req /\
    modify_presence_list quote _send c add_user_ids remove_user_ids = _send req /\
    getitem body "invite" = Return (sent add_user_ids) /\
    getitem body "drop" = Return (sent remove_user_ids).
Proof.
  intros quote _send c u add rem U sent body req. subst sent body req.
  unfold modify_presence_list, presence_list_request, quoted_user_id.
  rewrite U. cbn.
  destruct add, rem; repeat split.
Qed.

(** C10 with [add_user_ids] omitted, against a server that echoes the body
    it was sent. *)
Lemma C10_witness :
  let c := mkClient false None (Some "@me:example.org") 3600 [] in
  let echo := fun r : request =>
                match content r with Some b => Return b | None => Return JNull end in
  user_id c = Some "@me:example.org" /\
  modify_presence_list (fun s => s) echo c None (Some ["@bob:example.org"]) =
    Return (JObj [("invite", JArr []); ("drop", JArr [JStr "@bob:example.org"])]).
Proof.
  intros c echo.
  exact (conj eq_refl
           (proj1 (proj2 (C10_omitted_id_lists_are_sent_as_empty_lists (fun s => s) echo c
                            "@me:example.org" None (Some ["@bob:example.org"]) eq_refl)))).
Defined.

(** * Further properties *)

(** ** More on the sync loop *)

Import Scripts.

(** An iteration whose exception goes to a handler that returns. *)
Lemma iteration_handled (timeout_ms : Z) (h : option exception_handler_t) (base : Z)
  (s : sync_step) (st : loop_state) :
  handled_step h s = true ->
  exists e : exc,
    sync_result s = Some e /\ stop s = false /\
    is_Exception e = true /\ is_MatrixRequestError e = false /\
    iteration timeout_ms h base s st =
      (None, emit [EHandler e]
               (emit [ELogException "Exception thrown during sync"]
                  (env_stop false (emit [ESync timeout_ms] st)))).
Proof.
  unfold handled_step, iteration. intros H.
  destruct (sync_result s) as [e|]; [|discriminate].
  destruct h as [f|]; [|discriminate].
  apply andb_true_iff in H as [H S]. apply negb_true_iff in S.
  apply andb_true_iff in H as [H F].
  apply andb_true_iff in H as [E M]. apply negb_true_iff in M.
  exists e. rewrite S.
  destruct e; try discriminate; cbn; destruct (f _); try discriminate;
    repeat split; reflexivity.
Qed.

(** A retried step, spelled out. *)
Lemma transient_step_inv (s : sync_step) :
  transient_step s = true ->
  exists code content,
    sync_result s = Some (MatrixRequestError code content) /\
    (500 <=? code) = true /\ stop s = false.
Proof.
  unfold transient_step. intros T.
  destruct (sync_result s) as [e|]; [|discriminate].
  apply andb_true_iff in T as [T S]. apply negb_true_iff in S.
  destruct e; try discriminate. eauto.
Qed.

(** Stopping nothing leaves the state as it is when the loop is alive. *)
Lemma env_stop_false (st : loop_state) :
  should_listen (self st) = true -> env_stop false st = st.
Proof.
  intros L. unfold env_stop, set_should_listen. rewrite L.
  destruct st as [[sl th u lim ls] d tr]; cbn in *. subst. reflexivity.
Qed.

Lemma delay_after_succ (d limit : Z) (n : nat) :
  delay_after d limit (S n) = delay_after (Z.min (d * 2) limit) limit n.
Proof. unfold delay_after. now rewrite Nat.iter_succ_r. Qed.

(** A stretch of retried and handled errors: the loop stays alive, sleeps
    only for the retried ones, and the handled ones leave the delay alone. *)
Lemma mixed_run (timeout_ms : Z) (h : option exception_handler_t) (base : Z)
  (steps : list sync_step) :
  forall st : loop_state,
    should_listen (self st) = true ->
    forallb (fun s => transient_step s || handled_step h s) steps = true ->
    let r := listen_loop timeout_ms h base steps st in
    fst r = Pending /\
    sleeps (trace (snd r)) =
      (sleeps (trace st) ++
       delays_from (_bad_sync_timeout st) (bad_sync_timeout_limit (self st))
         (count_transient steps))%list /\
    _bad_sync_timeout (snd r) =
      delay_after (_bad_sync_timeout st) (bad_sync_timeout_limit (self st))
        (count_transient steps) /\
    handler_calls (trace (snd r)) =
      (handler_calls (trace st) ++ flat_map (handled_exception h) steps)%list.
Proof.
  induction steps as [|s rest IH]; intros st L F; cbv zeta.
  - cbn. rewrite L. cbn. rewrite !app_nil_r. auto.
  - cbn [forallb] in F. apply andb_true_iff in F as [T F].
    rewrite (listen_loop_cons _ _ _ _ _ _ L).
    unfold count_transient, handled_exception in *. cbn [filter flat_map].
    destruct (transient_step s) eqn:TS.
    + destruct (transient_step_inv s TS) as (code & content & R & C & S).
      assert (HS : handled_step h s = false).
      { unfold handled_step. rewrite R. destruct h; [|reflexivity]. reflexivity. }
      rewrite HS.
      rewrite (iteration_request_error _ _ _ _ _ _ _ R). cbv zeta.
      rewrite C, S. cbn [fst snd].
      match goal with
      | |- context [listen_loop _ _ _ rest ?s1] => specialize (IH s1)
      end.
      destruct IH as (P & Sl & D & Hc); [cbn; now rewrite L | assumption |].
      rewrite Sl, D, Hc. cbn [List.length]. rewrite delay_after_succ.
      cbn -[delay_after]. rewrite !sleeps_app, !handler_calls_app. cbn -[delay_after].
      rewrite !app_nil_r, <- app_assoc.
      repeat split; assumption || reflexivity.
    + cbn [orb] in T. rewrite T.
      destruct (iteration_handled timeout_ms h base s st T)
        as (e & R & S & E & M & I).
      rewrite I, R. cbn [fst snd].
      match goal with
      | |- context [listen_loop _ _ _ rest ?s1] => specialize (IH s1)
      end.
      destruct IH as (P & Sl & D & Hc); [cbn; now rewrite L | assumption |].
      rewrite Sl, D, Hc.
      cbn -[delay_after]. rewrite !sleeps_app, !handler_calls_app. cbn -[delay_after].
      rewrite !app_nil_r, <- app_assoc. rewrite ?L. cbn -[delay_after].
      repeat split; assumption || reflexivity.
Qed.

(** What one iteration adds to the handler's calls: nothing, or the one
    exception [_sync] raised, which then is an [Exception] other than a
    [MatrixRequestError]. *)
Lemma iteration_handler_calls (timeout_ms : Z) (h : option exception_handler_t)
  (base : Z) (ev : sync_step) (st : loop_state) :
  let st' := snd (iteration timeout_ms h base ev st) in
  handler_calls (trace st') = handler_calls (trace st) \/
  exists e, sync_result ev = Some e /\
            is_Exception e = true /\ is_MatrixRequestError e = false /\
            handler_calls (trace st') = (handler_calls (trace st) ++ [e])%list.
Proof.
  cbv zeta. unfold iteration.
  destruct (sync_result ev) as [e|].
  - destruct e; cbn; iteration_cases;
      rewrite ?handler_calls_app; cbn; rewrite ?app_nil_r;
      first [ now left | right; eexists; repeat split; reflexivity ].
  - left. cbn. rewrite handler_calls_app. cbn. now rewrite app_nil_r.
Qed.

Lemma listen_loop_handler_calls (timeout_ms : Z) (h : option exception_handler_t)
  (base : Z) (script : list sync_step) :
  forall st : loop_state,
    Forall (fun e => is_Exception e = true /\ is_MatrixRequestError e = false)
      (handler_calls (trace st)) ->
    Forall (fun e => is_Exception e = true /\ is_MatrixRequestError e = false)
      (handler_calls (trace (snd (listen_loop timeout_ms h base script st)))).
Proof.
  induction script as [|ev rest IH]; intros st F.
  - cbn. destruct (should_listen (self st)); exact F.
  - cbn [listen_loop]. destruct (should_listen (self st)); [|exact F].
    pose proof (iteration_handler_calls timeout_ms h base ev st) as I. cbv zeta in I.
    assert (F1 : Forall (fun e => is_Exception e = true /\ is_MatrixRequestError e = false)
                   (handler_calls (trace (snd (iteration timeout_ms h base ev st))))).
    { destruct I as [I | (e & _ & E & M & I)]; rewrite I; [exact F|].
      apply Forall_app. split; [exact F|]. constructor; [split; assumption|constructor]. }
    destruct (iteration timeout_ms h base ev st) as [[e|] st1]; cbn [snd] in *; [exact F1|].
    now apply IH.
Qed.

(** X1: over a whole run, whatever the script and the handler, every
    exception the handler was called with is an [Exception] that is not a
    [MatrixRequestError]: server errors of any status never reach the
    handler, nor do exceptions outside [Exception]. *)
Theorem X1_handler_never_sees_request_errors :
  forall (timeout_ms : Z) (exception_handler : option exception_handler_t)
         (bad_sync_timeout : Z) (c : GMatrixClient) (script : list sync_step),
    Forall (fun e => is_Exception e = true /\ is_MatrixRequestError e = false)
      (handler_calls
         (trace (snd (listen_forever timeout_ms exception_handler bad_sync_timeout
                        c script)))).
Proof.
  intros t h base c script. unfold listen_forever.
  apply listen_loop_handler_calls. constructor.
Qed.

(** X2: an exception outside [Exception] raised by [_sync] (a
    [GreenletExit] when the greenlet is killed, a [KeyboardInterrupt])
    leaves [listen_forever] at once even when a handler is configured:
    nothing is logged, the handler is not called, nothing sleeps, and the
    rest of the script is never synced. *)
Theorem X2_base_exceptions_bypass_the_handler :
  forall (timeout_ms : Z) (exception_handler : option exception_handler_t)
         (bad_sync_timeout : Z) (ev : sync_step) (rest : list sync_step)
         (st : loop_state) (cls : string),
    should_listen (self st) = true ->
    sync_result ev = Some (NonException cls) ->
    exists st' : loop_state,
      listen_loop timeout_ms exception_handler bad_sync_timeout (ev :: rest) st =
        (Raised (NonException cls), st') /\
      trace st' = (trace st ++ [ESync timeout_ms])%list /\
      _bad_sync_timeout st' = _bad_sync_timeout st.
Proof.
  intros t h base ev rest st cls L R.
  rewrite (listen_loop_cons _ _ _ _ _ _ L). unfold iteration. rewrite R. cbn.
  eexists. repeat split.
Qed.

(** X2 when a greenlet with a handler is killed during its first sync. *)
Lemma X2_witness :
  let st := mkState (set_should_listen true (init None 3600)) 5 [] in
  let ev := mkStep (Some (NonException "GreenletExit")) false in
  let h := Some (fun _ : exc => HReturns) in
  should_listen (self st) = true /\
  fst (listen_loop 30000 h 5 [ev; mkStep None false] st) =
    Raised (NonException "GreenletExit") /\
  trace (snd (listen_loop 30000 h 5 [ev; mkStep None false] st)) = [ESync 30000].
Proof.
  intros st ev h.
  destruct (X2_base_exceptions_bypass_the_handler 30000 h 5 ev [mkStep None false] st
              "GreenletExit" eq_refl eq_refl) as (st' & Hl & Ht & _).
  rewrite Hl. cbn [fst snd]. exact (conj eq_refl (conj eq_refl Ht)).
Defined.

(** X3: when the handler itself raises, the exception it raises (not the
    one [_sync] raised) leaves [listen_forever]; the handler was called
    once, nothing sleeps and the rest of the script is never synced. *)
Theorem X3_exception_from_the_handler_ends_the_loop :
  forall (timeout_ms : Z) (h : exception_handler_t) (bad_sync_timeout : Z)
         (ev : sync_step) (rest : list sync_step) (st : loop_state) (e e' : exc),
    should_listen (self st) = true ->
    sync_result ev = Some e ->
    is_Exception e = true ->
    is_MatrixRequestError e = false ->
    h e = HRaises e' ->
    exists st' : loop_state,
      listen_loop timeout_ms (Some h) bad_sync_timeout (ev :: rest) st = (Raised e', st') /\
      handler_calls (trace st') = (handler_calls (trace st) ++ [e])%list /\
      sleeps (trace st') = sleeps (trace st) /\
      sync_calls (trace st') = (sync_calls (trace st) ++ [timeout_ms])%list.
Proof.
  intros t h base ev rest st e e' L R E M H.
  rewrite (listen_loop_cons _ _ _ _ _ _ L). unfold iteration. rewrite R.
  destruct e; try discriminate; cbn; rewrite H; cbn;
    eexists; (split; [reflexivity|]); cbn;
    rewrite ?handler_calls_app, ?sleeps_app, ?sync_calls_app; cbn; rewrite ?app_nil_r;
    repeat split; reflexivity.
Qed.

(** X3 with a handler that re-raises what it is given as a [RuntimeError]. *)
Lemma X3_witness :
  let st := mkState (set_should_listen true (init None 3600)) 5 [] in
  let e := OtherException "ValueError" "no JSON" in
  let e' := OtherException "RuntimeError" "giving up" in
  let h := fun _ : exc => HRaises e' in
  let ev := mkStep (Some e) false in
  should_listen (self st) = true /\
  is_Exception e = true /\ is_MatrixRequestError e = false /\
  fst (listen_loop 30000 (Some h) 5 [ev; mkStep None false] st) = Raised e' /\
  handler_calls (trace (snd (listen_loop 30000 (Some h) 5 [ev; mkStep None false] st)))
    = [e].
Proof.
  intros st e e' h ev.
  destruct (X3_exception_from_the_handler_ends_the_loop 30000 h 5 ev [mkStep None false]
              st e e' eq_refl eq_refl eq_refl eq_refl eq_refl) as (st' & Hl & Hh & _).
  exact (conj eq_refl (conj eq_refl (conj eq_refl
           (conj (f_equal fst Hl)
                 (eq_trans (f_equal (fun r => handler_calls (trace (snd r))) Hl) Hh))))).
Defined.

(** X4: when [should_listen] is cleared during an iteration that does not
    raise, [listen_forever] returns normally right after that iteration and
    never syncs again; if that iteration's [_sync] failed with a status of
    at least 500, the loop still sleeps for the whole current delay before
    it returns. *)
Theorem X4_stop_request_ends_the_loop_after_the_iteration :
  forall (timeout_ms : Z) (exception_handler : option exception_handler_t)
         (bad_sync_timeout : Z) (ev : sync_step) (rest : list sync_step)
         (st : loop_state),
    should_listen (self st) = true ->
    stop ev = true ->
    fst (iteration timeout_ms exception_handler bad_sync_timeout ev st) = None ->
    let st' := snd (iteration timeout_ms exception_handler bad_sync_timeout ev st) in
    listen_loop timeout_ms exception_handler bad_sync_timeout (ev :: rest) st =
      (Returned, st') /\
    sync_calls (trace st') = (sync_calls (trace st) ++ [timeout_ms])%list /\
    sleeps (trace st') =
      (sleeps (trace st) ++
       match sync_result ev with
       | Some e => if is_transient e then [_bad_sync_timeout st] else []
       | None => []
       end)%list.
Proof.
  intros t h base ev rest st L S I st'. subst st'.
  rewrite (listen_loop_cons _ _ _ _ _ _ L), I.
  pose proof (iteration_should_listen t h base ev st) as L1. rewrite L, S in L1.
  split; [|split; [apply iteration_sync_calls|]].
  - destruct rest; cbn [listen_loop]; cbn in L1; rewrite L1; reflexivity.
  - clear I L1. unfold iteration.
    destruct (sync_result ev) as [e|].
    + destruct e; cbn; rewrite ?Z.geb_leb; iteration_cases;
        rewrite ?sleeps_app; cbn; rewrite ?app_nil_r; reflexivity.
    + cbn. rewrite sleeps_app. cbn. now rewrite !app_nil_r.
Qed.

(** X4 when the loop is stopped during a sync that fails with a 503: the
    5 second sleep still happens, then the loop returns. *)
Lemma X4_witness :
  let st := mkState (set_should_listen true (init None 3600)) 5 [] in
  let ev := mkStep (Some (MatrixRequestError 503 "")) true in
  should_listen (self st) = true /\ stop ev = true /\
  fst (listen_loop 30000 None 5 [ev; mkStep None false] st) = Returned /\
  sleeps (trace (snd (iteration 30000 None 5 ev st))) = [5].
Proof.
  intros st ev.
  destruct (X4_stop_request_ends_the_loop_after_the_iteration 30000 None 5 ev
              [mkStep None false] st eq_refl eq_refl eq_refl) as (Hl & _ & Hs).
  rewrite Hl. exact (conj eq_refl (conj eq_refl (conj eq_refl Hs))).
Defined.

(** X5: exceptions that the handler takes care of do not reset the
    backoff.  From a fresh or just-reset backoff, over any stretch of
    retried errors interleaved with handled exceptions, the loop stays
    alive, the sleeps are [base, min(base*2, limit), ...], one per retried
    error, as if the handled exceptions were not there, and the handler is
    called once for each handled exception, in order. *)
Theorem X5_handled_exceptions_do_not_reset_the_backoff :
  forall (timeout_ms : Z) (exception_handler : option exception_handler_t)
         (bad_sync_timeout : Z) (c : GMatrixClient) (pre steps : list sync_step),
    0 <= bad_sync_timeout_limit c ->
    fresh_or_reset pre = true ->
    fst (listen_forever timeout_ms exception_handler bad_sync_timeout c pre) = Pending ->
    forallb (fun s => transient_step s || handled_step exception_handler s) steps = true ->
    let before := snd (listen_forever timeout_ms exception_handler bad_sync_timeout c pre) in
    let r := listen_forever timeout_ms exception_handler bad_sync_timeout c (pre ++ steps) in
    fst r = Pending /\
    sleeps (trace (snd r)) =
      (sleeps (trace before) ++
       backoff_delays bad_sync_timeout (bad_sync_timeout_limit c)
         (count_transient steps))%list /\
    handler_calls (trace (snd r)) =
      (handler_calls (trace before) ++
       flat_map (handled_exception exception_handler) steps)%list.
Proof.
  intros t h base c pre steps L FR P T before r. subst before r.
  pose proof (fresh_or_reset_delay t h base c pre FR P) as D.
  unfold listen_forever in *.
  set (st0 := mkState (set_should_listen true c) base []) in *.
  pose proof (listen_loop_limit t h base pre st0) as Lim.
  destruct (listen_loop t h base pre st0) as [s st] eqn:E. cbn [fst snd] in *. subst s.
  rewrite (listen_loop_app _ _ _ _ _ _ _ E).
  destruct (mixed_run t h base steps st (pending_should_listen _ _ _ _ _ _ E) T)
    as (P1 & S1 & _ & H1).
  rewrite S1, H1, D, Lim. cbn [st0 self set_should_listen bad_sync_timeout_limit].
  rewrite delays_from_backoff by assumption. auto.
Qed.

(** X5 on a 503, a handled [ValueError], and two more 503s: the sleeps are
    5, 10, 20 and the handler saw the [ValueError] once. *)
Lemma X5_witness :
  let e503 := mkStep (Some (MatrixRequestError 503 "")) false in
  let bad := OtherException "ValueError" "no JSON" in
  let h := Some (fun _ : exc => HReturns) in
  let c := init None 80 in
  let r := listen_forever 30000 h 5 c ([] ++ [e503; mkStep (Some bad) false; e503; e503]) in
  0 <= bad_sync_timeout_limit c /\
  fst r = Pending /\
  sleeps (trace (snd r)) = [5; 10; 20] /\
  handler_calls (trace (snd r)) = [bad].
Proof.
  intros e503 bad h c r.
  assert (H : 0 <= bad_sync_timeout_limit c) by (cbn; lia).
  exact (conj H
           (X5_handled_exceptions_do_not_reset_the_backoff 30000 h 5 c []
              [e503; mkStep (Some bad) false; e503; e503] H eq_refl eq_refl eq_refl)).
Defined.

(** When every step is a retried error, all of them count. *)
Lemma count_transient_all (fails : list sync_step) :
  forallb transient_step fails = true -> count_transient fails = List.length fails.
Proof.
  unfold count_transient. induction fails as [|s rest IH]; [reflexivity|].
  cbn. intros H. apply andb_true_iff in H as [T F]. rewrite T. cbn. now rewrite IH.
Qed.

Lemma transient_is_mixed (h : option exception_handler_t) (fails : list sync_step) :
  forallb transient_step fails = true ->
  forallb (fun s => transient_step s || handled_step h s) fails = true.
Proof.
  induction fails as [|s rest IH]; [reflexivity|].
  cbn. intros H. apply andb_true_iff in H as [T F]. rewrite T. cbn. now apply IH.
Qed.

(** The delay after [n] retried errors in closed form. *)
Lemma delay_after_min (base limit : Z) (n : nat) :
  0 <= limit -> base <= limit ->
  delay_after base limit n = Z.min (base * 2 ^ Z.of_nat n) limit.
Proof.
  intros L B. induction n as [|n IH].
  - cbn. lia.
  - change (delay_after base limit (S n))
      with (Z.min (delay_after base limit n * 2) limit).
    rewrite IH.
    replace (Z.of_nat (S n)) with (Z.succ (Z.of_nat n)) by lia.
    rewrite Z.pow_succ_r by lia. lia.
Qed.

(** At the limit the delays stay at the limit. *)
Lemma delays_from_limit (limit : Z) (n : nat) :
  0 <= limit -> delays_from limit limit n = repeat limit n.
Proof.
  intros L. induction n as [|n IH]; [reflexivity|].
  cbn [delays_from repeat]. replace (Z.min (limit * 2) limit) with limit by lia.
  now rewrite IH.
Qed.

(** X6: the backoff reaches the limit and stays there.  With
    [0 < base <= limit], once [n] consecutive retried errors have happened
    with [limit <= base * 2^n], the delay held is exactly the limit, and
    every further consecutive retried error sleeps for exactly the limit. *)
Theorem X6_backoff_saturates_at_the_limit :
  forall (timeout_ms : Z) (exception_handler : option exception_handler_t)
         (bad_sync_timeout : Z) (c : GMatrixClient)
         (pre fails more : list sync_step),
    0 < bad_sync_timeout ->
    bad_sync_timeout <= bad_sync_timeout_limit c ->
    fresh_or_reset pre = true ->
    fst (listen_forever timeout_ms exception_handler bad_sync_timeout c pre) = Pending ->
    forallb transient_step fails = true ->
    forallb transient_step more = true ->
    bad_sync_timeout_limit c <= bad_sync_timeout * 2 ^ Z.of_nat (List.length fails) ->
    let mid := snd (listen_forever timeout_ms exception_handler bad_sync_timeout c
                      (pre ++ fails)) in
    let r := listen_forever timeout_ms exception_handler bad_sync_timeout c
               ((pre ++ fails) ++ more) in
    _bad_sync_timeout mid = bad_sync_timeout_limit c /\
    fst r = Pending /\
    sleeps (trace (snd r)) =
      (sleeps (trace mid) ++ repeat (bad_sync_timeout_limit c) (List.length more))%list.
Proof.
  intros t h base c pre fails more B BL FR P F M Sat mid r. subst mid r.
  pose proof (fresh_or_reset_delay t h base c pre FR P) as D.
  unfold listen_forever in *.
  set (st0 := mkState (set_should_listen true c) base []) in *.
  pose proof (listen_loop_limit t h base pre st0) as Lim.
  destruct (listen_loop t h base pre st0) as [s st] eqn:E. cbn [fst snd] in *. subst s.
  rewrite <- app_assoc, !(listen_loop_app _ _ _ _ _ _ _ E).
  destruct (mixed_run t h base fails st (pending_should_listen _ _ _ _ _ _ E)
              (transient_is_mixed h fails F)) as (P1 & _ & D1 & _).
  rewrite (count_transient_all fails F), D, Lim in D1.
  cbn [st0 self set_should_listen bad_sync_timeout_limit] in D1.
  rewrite delay_after_min in D1 by lia.
  rewrite Z.min_r in D1 by assumption.
  pose proof (listen_loop_limit t h base fails st) as Lim1.
  destruct (listen_loop t h base fails st) as [s st1] eqn:E1. cbn [fst snd] in *. subst s.
  rewrite (listen_loop_app _ _ _ _ _ _ _ E1).
  destruct (transient_run t h base more st1 (pending_should_listen _ _ _ _ _ _ E1) M)
    as (P2 & S2).
  rewrite S2, D1, Lim1, Lim. cbn [st0 self set_should_listen bad_sync_timeout_limit].
  rewrite delays_from_limit by lia. auto.
Qed.

(** X6 with base 5 and limit 80: after four 503s the delay is 80, and three
    more sleep 80 each. *)
Lemma X6_witness :
  let e503 := mkStep (Some (MatrixRequestError 503 "")) false in
  let c := init None 80 in
  let fails := [e503; e503; e503; e503] in
  let r := listen_forever 30000 None 5 c (([] ++ fails) ++ [e503; e503; e503]) in
  0 < 5 /\ 5 <= bad_sync_timeout_limit c /\
  bad_sync_timeout_limit c <= 5 * 2 ^ Z.of_nat (List.length fails) /\
  _bad_sync_timeout (snd (listen_forever 30000 None 5 c ([] ++ fails))) = 80 /\
  sleeps (trace (snd r)) = [5; 10; 20; 40; 80; 80; 80].
Proof.
  intros e503 c fails r.
  assert (H1 : 0 < 5) by lia.
  assert (H2 : 5 <= bad_sync_timeout_limit c) by (cbn; lia).
  assert (H3 : bad_sync_timeout_limit c <= 5 * 2 ^ Z.of_nat (List.length fails))
    by (cbn; lia).
  destruct (X6_backoff_saturates_at_the_limit 30000 None 5 c [] fails [e503; e503; e503]
              H1 H2 eq_refl eq_refl eq_refl eq_refl H3) as (Hd & _ & Hs).
  exact (conj H1 (conj H2 (conj H3 (conj Hd Hs)))).
Defined.

(** Between zero and the limit, doubling under the limit never goes down. *)
Lemma delays_from_nondecreasing (limit : Z) (n : nat) :
  forall d : Z, 0 <= d <= limit -> nondecreasing (delays_from d limit n).
Proof.
  induction n as [|n IH]; intros d D; [exact I|].
  cbn [delays_from]. specialize (IH (Z.min (d * 2) limit)).
  destruct n as [|n]; [exact I|].
  cbn [delays_from nondecreasing] in *. split; [lia|]. apply IH. lia.
Qed.

Lemma length_delays_from (limit : Z) (n : nat) :
  forall d : Z, List.length (delays_from d limit n) = n.
Proof. induction n as [|n IH]; intros d; cbn; [reflexivity | now rewrite IH]. Qed.

(** X7: with [0 < base <= limit], wherever the run stands (fresh or not),
    the sleeps of a stretch of consecutive retried errors start at the
    delay currently held and never go down from one to the next. *)
Theorem X7_consecutive_sleeps_never_decrease :
  forall (timeout_ms : Z) (exception_handler : option exception_handler_t)
         (bad_sync_timeout : Z) (c : GMatrixClient) (pre fails : list sync_step),
    0 < bad_sync_timeout ->
    bad_sync_timeout <= bad_sync_timeout_limit c ->
    fst (listen_forever timeout_ms exception_handler bad_sync_timeout c pre) = Pending ->
    forallb transient_step fails = true ->
    let before := snd (listen_forever timeout_ms exception_handler bad_sync_timeout c pre) in
    let r := listen_forever timeout_ms exception_handler bad_sync_timeout c (pre ++ fails) in
    let ds := delays_from (_bad_sync_timeout before) (bad_sync_timeout_limit c)
                (List.length fails) in
    sleeps (trace (snd r)) = (sleeps (trace before) ++ ds)%list /\
    List.length ds = List.length fails /\
    nondecreasing ds.
Proof.
  intros t h base c pre fails B BL P F before r ds. subst before r ds.
  unfold listen_forever in *.
  set (st0 := mkState (set_should_listen true c) base []) in *.
  pose proof (listen_loop_limit t h base pre st0) as Lim.
  destruct (listen_loop_bounds t h base pre (bad_sync_timeout_limit c) B BL st0)
    as [D _]; [reflexivity | cbn; lia | constructor |].
  destruct (listen_loop t h base pre st0) as [s st] eqn:E. cbn [fst snd] in *. subst s.
  rewrite (listen_loop_app _ _ _ _ _ _ _ E).
  destruct (transient_run t h base fails st (pending_should_listen _ _ _ _ _ _ E) F)
    as (_ & S1).
  rewrite S1, Lim. cbn [st0 self set_should_listen bad_sync_timeout_limit].
  split; [reflexivity|]. split.
  - apply length_delays_from.
  - apply delays_from_nondecreasing. lia.
Qed.

(** X7 on a run that already failed twice: three more 503s sleep 20, 40,
    then 50 with a limit of 50. *)
Lemma X7_witness :
  let e503 := mkStep (Some (MatrixRequestError 503 "")) false in
  let c := init None 50 in
  let r := listen_forever 30000 None 5 c ([e503; e503] ++ [e503; e503; e503]) in
  0 < 5 /\ 5 <= bad_sync_timeout_limit c /\
  sleeps (trace (snd r)) = [5; 10; 20; 40; 50] /\
  nondecreasing [20; 40; 50].
Proof.
  intros e503 c r.
  assert (H1 : 0 < 5) by lia.
  assert (H2 : 5 <= bad_sync_timeout_limit c) by (cbn; lia).
  destruct (X7_consecutive_sleeps_never_decrease 30000 None 5 c [e503; e503]
              [e503; e503; e503] H1 H2 eq_refl eq_refl) as (Hs & _ & Hn).
  exact (conj H1 (conj H2 (conj Hs Hn))).
Defined.

(** A stretch of steps the loop gets over: good syncs, retried errors and
    handled exceptions. *)
Lemma recoverable_run (timeout_ms : Z) (h : option exception_handler_t) (base : Z)
  (steps : list sync_step) :
  forall st : loop_state,
    should_listen (self st) = true ->
    forallb (fun s => good_step s || transient_step s || handled_step h s) steps = true ->
    let r := listen_loop timeout_ms h base steps st in
    fst r = Pending /\
    handler_calls (trace (snd r)) =
      (handler_calls (trace st) ++ flat_map (handled_exception h) steps)%list.
Proof.
  induction steps as [|s rest IH]; intros st L F; cbv zeta.
  - cbn. rewrite L. cbn. rewrite app_nil_r. auto.
  - cbn [forallb] in F. apply andb_true_iff in F as [T F].
    rewrite (listen_loop_cons _ _ _ _ _ _ L).
    unfold handled_exception. cbn [flat_map].
    destruct (good_step s) eqn:G; [|destruct (transient_step s) eqn:TS].
    + unfold good_step in G. destruct (sync_result s) eqn:R; [discriminate|].
      apply negb_true_iff in G.
      assert (HS : handled_step h s = false) by (unfold handled_step; now rewrite R).
      rewrite HS, (iteration_success _ _ _ _ _ R), G. cbn [fst snd].
      match goal with
      | |- context [listen_loop _ _ _ rest ?s1] => specialize (IH s1)
      end.
      destruct IH as (P & Hc); [cbn; now rewrite L | assumption |].
      rewrite Hc. cbn. rewrite !handler_calls_app. cbn. rewrite !app_nil_r. auto.
    + destruct (transient_step_inv s TS) as (code & content & R & C & S).
      assert (HS : handled_step h s = false).
      { unfold handled_step. rewrite R. destruct h; reflexivity. }
      rewrite HS, (iteration_request_error _ _ _ _ _ _ _ R). cbv zeta.
      rewrite C, S. cbn [fst snd].
      match goal with
      | |- context [listen_loop _ _ _ rest ?s1] => specialize (IH s1)
      end.
      destruct IH as (P & Hc); [cbn; now rewrite L | assumption |].
      rewrite Hc. cbn. rewrite !handler_calls_app. cbn. rewrite !app_nil_r. auto.
    + cbn [orb] in T. rewrite T.
      destruct (iteration_handled timeout_ms h base s st T)
        as (e & R & S & E & M & I).
      rewrite I, R. cbn [fst snd].
      match goal with
      | |- context [listen_loop _ _ _ rest ?s1] => specialize (IH s1)
      end.
      destruct IH as (P & Hc); [cbn; now rewrite L | assumption |].
      rewrite Hc. cbn. rewrite !handler_calls_app. cbn.
      rewrite !app_nil_r, <- app_assoc. auto.
Qed.

(** X8: the loop survives everything it is built to survive.  Over a
    script of any length whose steps are good syncs, errors with status at
    least 500, and exceptions the handler returns from (nobody stopping the
    loop), [listen_forever] neither returns nor raises: it has called
    [_sync] once per step, each time with [timeout_ms], has called the
    handler once per handled exception, in order, and is about to sync
    again. *)
Theorem X8_loop_survives_recoverable_failures :
  forall (timeout_ms : Z) (exception_handler : option exception_handler_t)
         (bad_sync_timeout : Z) (c : GMatrixClient) (script : list sync_step),
    forallb (fun s => good_step s || transient_step s ||
                      handled_step exception_handler s) script = true ->
    let r := listen_forever timeout_ms exception_handler bad_sync_timeout c script in
    fst r = Pending /\
    sync_calls (trace (snd r)) = repeat timeout_ms (List.length script) /\
    handler_calls (trace (snd r)) = flat_map (handled_exception exception_handler) script.
Proof.
  intros t h base c script F r. subst r. unfold listen_forever.
  set (st0 := mkState (set_should_listen true c) base []).
  destruct (recoverable_run t h base script st0 eq_refl F) as (P & Hc).
  destruct (listen_loop t h base script st0) as [s st] eqn:E. cbn [fst snd] in *. subst s.
  pose proof (pending_sync_calls _ _ _ _ _ _ E) as S1.
  auto.
Qed.

(** X8 on a good sync, a 502, a handled timeout and a good sync. *)
Lemma X8_witness :
  let slow := OtherException "ConnectionError" "timed out" in
  let h := Some (fun _ : exc => HReturns) in
  let script := [mkStep None false; mkStep (Some (MatrixRequestError 502 "")) false;
                 mkStep (Some slow) false; mkStep None false] in
  let r := listen_forever 30000 h 5 (init None 3600) script in
  fst r = Pending /\
  sync_calls (trace (snd r)) = [30000; 30000; 30000; 30000] /\
  handler_calls (trace (snd r)) = [slow].
Proof.
  intros slow h script r.
  exact (X8_loop_survives_recoverable_failures 30000 h 5 (init None 3600) script eq_refl).
Defined.

(** ** More on the background runner *)

(** X9: a listener started with [start_listener_thread] always backs off
    from 5 seconds: the spawn passes [timeout_ms] and the handler only, so
    the greenlet that [sync_thread] refers to runs with the default
    [bad_sync_timeout].  With a limit that is not negative, its [n] first
    consecutive retried errors sleep [5, min(10, limit), min(20, limit), ...]
    and each of its syncs uses the [timeout_ms] given to
    [start_listener_thread]. *)
Theorem X9_background_listener_backs_off_from_five_seconds :
  forall (timeout_ms : Z) (exception_handler : option exception_handler_t)
         (w : world) (fails : list sync_step),
    0 <= bad_sync_timeout_limit (client w) ->
    forallb transient_step fails = true ->
    let w' := start_listener_thread timeout_ms exception_handler w in
    exists g : greenlet,
      sync_thread (client w') = Some g /\
      fst (run g (client w') fails) = SyncLoop.Pending /\
      sleeps (trace (snd (run g (client w') fails))) =
        backoff_delays 5 (bad_sync_timeout_limit (client w)) (List.length fails) /\
      sync_calls (trace (snd (run g (client w') fails))) =
        repeat timeout_ms (List.length fails).
Proof.
  intros t h w fails L F w'. subst w'.
  eexists. split; [reflexivity|].
  unfold run, default_bad_sync_timeout, listen_forever. cbn [g_timeout_ms g_exception_handler].
  match goal with
  | |- context [listen_loop _ _ _ fails ?s0] => set (st0 := s0)
  end.
  destruct (transient_run t h 5 fails st0 eq_refl F) as (P & S1).
  destruct (listen_loop t h 5 fails st0) as [s st] eqn:E. cbn [fst snd] in *. subst s.
  pose proof (pending_sync_calls _ _ _ _ _ _ E) as S2.
  split; [reflexivity|]. split; [|exact S2].
  rewrite S1. cbn. now apply delays_from_backoff.
Qed.

(** X9 with a limit of 80 and three 503s. *)
Lemma X9_witness :
  let e503 := mkStep (Some (MatrixRequestError 503 "")) false in
  let w := mkWorld (init None 80) [] in
  let w' := start_listener_thread 1000 None w in
  0 <= bad_sync_timeout_limit (client w) /\
  exists g : greenlet,
    sync_thread (client w') = Some g /\
    sleeps (trace (snd (run g (client w') [e503; e503; e503]))) = [5; 10; 20] /\
    sync_calls (trace (snd (run g (client w') [e503; e503; e503]))) = [1000; 1000; 1000].
Proof.
  intros e503 w w'.
  assert (H : 0 <= bad_sync_timeout_limit (client w)) by (cbn; lia).
  destruct (X9_background_listener_backs_off_from_five_seconds 1000 None w
              [e503; e503; e503] H eq_refl) as (g & Hg & _ & Hs & Hc).
  exact (conj H (ex_intro _ g (conj Hg (conj Hs Hc)))).
Defined.

(** ** More on the user directory *)

Section DirectoryMore.

Variable user : Type.
Variable User : json -> json -> result user.

(** When the comprehension returns, every element returned, one user per
    item and in order. *)
Lemma users_of_return_inv (items : list json) :
  forall us : list user,
    users_of user User items = Return us ->
    Forall2 (fun item u => user_of user User item = Return u) items us.
Proof.
  induction items as [|item rest IH]; intros us H; cbn [users_of] in H.
  - inversion H. constructor.
  - destruct (user_of user User item) as [u|e] eqn:U; cbn in H; [|discriminate].
    destruct (users_of user User rest) as [us'|e] eqn:R; cbn in H; [|discriminate].
    inversion H; subst. constructor; [assumption|]. now apply IH.
Qed.

(** The [try] statement never lets a [KeyError] out. *)
Lemma users_of_response_no_KeyError (response : json) (k : string) :
  users_of_response user User response <> Raise (KeyError k).
Proof.
  unfold users_of_response, except_KeyError.
  match goal with |- context [match ?m with Return _ => _ | Raise _ => _ end] =>
    destruct m as [a|e] end; [discriminate|].
  destruct e; cbn; discriminate.
Qed.

End DirectoryMore.

(** X10: [search_user_directory] raises a [KeyError] only when
    [self.api._send] itself raised it: a missing key anywhere in the
    response never surfaces as a [KeyError] to the caller. *)
Theorem X10_key_errors_come_from_the_transport_only :
  forall (user : Type) (User : json -> json -> result user)
         (_send : request -> result json) (term k : string),
    search_user_directory user User _send term = Raise (KeyError k) ->
    _send (mkRequest "POST" "/user_directory/search"
             (Some (JObj [("search_term", JStr term)]))) = Raise (KeyError k).
Proof.
  intros user User _send term k H. unfold search_user_directory in H.
  destruct (_send _) as [response|e]; cbn [bind] in H.
  - now apply users_of_response_no_KeyError in H.
  - inversion H. reflexivity.
Qed.

(** X10 on a transport that raises [KeyError]. *)
Lemma X10_witness :
  let failing := fun _ : request => @Raise json (KeyError "access_token") in
  search_user_directory plain_user plain_User failing "bob" = Raise (KeyError "access_token") /\
  failing (mkRequest "POST" "/user_directory/search"
             (Some (JObj [("search_term", JStr "bob")]))) = Raise (KeyError "access_token").
Proof.
  intros failing.
  exact (conj eq_refl
           (X10_key_errors_come_from_the_transport_only plain_user plain_User failing
              "bob" "access_token" eq_refl)).
Defined.

(** X11: the result is all or nothing.  When [results] is a list and
    [search_user_directory] returns, it returns either one user per record,
    in order, or the empty list; it never returns the users built before a
    record that lacks a key. *)
Theorem X11_search_result_is_all_or_nothing :
  forall (user : Type) (User : json -> json -> result user)
         (_send : request -> result json) (term : string)
         (fields : list (string * json)) (items : list json) (us : list user),
    _send (mkRequest "POST" "/user_directory/search"
             (Some (JObj [("search_term", JStr term)]))) = Return (JObj fields) ->
    lookup "results" fields = Some (JArr items) ->
    search_user_directory user User _send term = Return us ->
    us = [] \/
    (Forall2 (fun item u => user_of user User item = Return u) items us /\
     List.length us = List.length items).
Proof.
  intros user User _send term fields items us S L H.
  unfold search_user_directory in H. rewrite S in H. cbn [bind] in H.
  unfold users_of_response in H. cbn [getitem] in H. rewrite L in H. cbn [bind iter] in H.
  destruct (users_of user User items) as [us'|e] eqn:U; cbn in H.
  - inversion H; subst. right.
    pose proof (users_of_return_inv user User items us U) as F.
    split; [assumption|]. symmetry. exact (Forall2_length F).
  - destruct (is_KeyError e); [|discriminate]. inversion H. now left.
Qed.

(** X11 on a list whose third record has no [user_id]: the two users built
    before it are dropped. *)
Lemma X11_witness :
  let rec n := JObj [("user_id", JStr n); ("display_name", JStr n)] in
  let body := JObj [("results", JArr [rec "a"; rec "b"; JObj [("display_name", JStr "c")]])] in
  search_user_directory plain_user plain_User (answering body) "x" = Return [] /\
  ((@nil plain_user) = [] \/
   (Forall2 (fun item u => user_of plain_user plain_User item = Return u)
      [rec "a"; rec "b"; JObj [("display_name", JStr "c")]] [] /\
    List.length (@nil plain_user) = 3%nat)).
Proof.
  intros rec body.
  exact (conj eq_refl
           (X11_search_result_is_all_or_nothing plain_user plain_User (answering body) "x"
              _ _ [] eq_refl eq_refl eq_refl)).
Defined.

(** X12: a response body that is not an object (null, a boolean, a number,
    a string, a list) makes [search_user_directory] raise [TypeError]; it
    is not turned into an empty list. *)
Theorem X12_non_object_response_raises_type_error :
  forall (user : Type) (User : json -> json -> result user)
         (_send : request -> result json) (term : string) (response : json),
    _send (mkRequest "POST" "/user_directory/search"
             (Some (JObj [("search_term", JStr term)]))) = Return response ->
    match response with JObj _ => false | _ => true end = true ->
    exists msg : string,
      search_user_directory user User _send term = Raise (TypeError msg).
Proof.
  intros user User _send term response S N.
  unfold search_user_directory. rewrite S. cbn [bind].
  destruct response; try discriminate; cbn; eexists; reflexivity.
Qed.

(** X12 on a server that answers with a bare list. *)
Lemma X12_witness :
  let body := JArr [JObj [("user_id", JStr "@a:b"); ("display_name", JStr "A")]] in
  exists msg : string,
    search_user_directory plain_user plain_User (answering body) "a"
    = Raise (TypeError msg).
Proof.
  intros body.
  exact (X12_non_object_response_raises_type_error plain_user plain_User (answering body)
           "a" body eq_refl eq_refl).
Defined.

(** X13: when [results] is an object instead of a list, the loop runs over
    its keys: an empty object gives the empty list, and any other object
    raises [TypeError] on the first key, whatever the keys and values. *)
Theorem X13_results_object_is_iterated_by_key :
  forall (user : Type) (User : json -> json -> result user)
         (_send : request -> result json) (term : string)
         (fields rfields : list (string * json)),
    _send (mkRequest "POST" "/user_directory/search"
             (Some (JObj [("search_term", JStr term)]))) = Return (JObj fields) ->
    lookup "results" fields = Some (JObj rfields) ->
    search_user_directory user User _send term =
      match rfields with
      | [] => Return []
      | _ :: _ => Raise (TypeError "string indices must be integers")
      end.
Proof.
  intros user User _send term fields rfields S L.
  unfold search_user_directory. rewrite S. cbn [bind].
  unfold users_of_response. cbn [getitem]. rewrite L. cbn [bind iter].
  destruct rfields as [|[k v] rest]; reflexivity.
Qed.

(** X13 on results keyed by user id. *)
Lemma X13_witness :
  let body := JObj [("results", JObj [("@a:b", JObj [("display_name", JStr "A")])])] in
  search_user_directory plain_user plain_User (answering body) "a"
  = Raise (TypeError "string indices must be integers").
Proof.
  intros body.
  exact (X13_results_object_is_iterated_by_key plain_user plain_User (answering body) "a"
           _ _ eq_refl eq_refl).
Defined.

(** ** The endpoints addressed to the client's own user *)

Import Endpoints.

(** X14: on a client whose [user_id] attribute holds [None] (it was
    assigned [None]; a client on which the attribute was never assigned is
    another state, which the record does not represent),
    [modify_presence_list], [get_presence_list], [set_presence_state] and
    [typing] all raise [TypeError] from [quote(None)] while building the
    path, whatever the arguments and whatever the server would have
    answered: no request is made. *)
Theorem X14_no_user_id_no_request :
  forall (quote : string -> string) (_send : request -> result json)
         (room : Type) (room_id : room -> string) (c : GMatrixClient)
         (add_user_ids remove_user_ids : option (list string))
         (state : string) (r : room) (timeout : Z),
    user_id c = None ->
    let err := @Raise json (TypeError "quote_from_bytes() expected bytes") in
    modify_presence_list quote _send c add_user_ids remove_user_ids = err /\
    get_presence_list quote _send c = err /\
    set_presence_state quote _send c state = err /\
    typing quote _send room room_id c r timeout = err.
Proof.
  intros quote _send room room_id c add rem state r timeout U err. subst err.
  unfold modify_presence_list, presence_list_request, get_presence_list,
    set_presence_state, typing, quoted_user_id.
  rewrite U. cbn. repeat split.
Qed.

(** X14 on a logged-in client whose [user_id] was then set to [None], with
    a server that would answer anything. *)
Lemma X14_witness :
  let logged_in := mkClient false None (Some "@me:example.org") 3600 [] in
  let c := mkClient (should_listen logged_in) (sync_thread logged_in) None
             (bad_sync_timeout_limit logged_in) (listeners logged_in) in
  let server := answering (JObj []) in
  user_id c = None /\
  get_presence_list (fun s => s) server c
  = Raise (TypeError "quote_from_bytes() expected bytes") /\
  typing (fun s => s) server string (fun s => s) c "!room:example.org"
    default_typing_timeout
  = Raise (TypeError "quote_from_bytes() expected bytes").
Proof.
  intros logged_in c server.
  destruct (X14_no_user_id_no_request (fun s => s) server string (fun s => s) c
              None None "online" "!room:example.org" default_typing_timeout eq_refl)
    as (_ & Hg & _ & Ht).
  exact (conj eq_refl (conj Hg Ht)).
Defined.

(** X15: none of the request wrappers catches what the transport raises.
    On a client with a user id, when [self.api._send] raises [e], so do
    [search_user_directory] (the [try] does not cover the request, so even
    a [KeyError] gets out), [modify_presence_list], [get_presence_list],
    [set_presence_state] and [typing]; nothing is retried. *)
Theorem X15_transport_errors_propagate_unchanged :
  forall (quote : string -> string) (_send : request -> result json)
         (user : Type) (User : json -> json -> result user)
         (room : Type) (room_id : room -> string) (c : GMatrixClient) (u : string)
         (e : exc) (term : string)
         (add_user_ids remove_user_ids : option (list string))
         (state : string) (r : room) (timeout : Z),
    user_id c = Some u ->
    (forall req : request, _send req = Raise e) ->
    search_user_directory user User _send term = Raise e /\
    modify_presence_list quote _send c add_user_ids remove_user_ids = Raise e /\
    get_presence_list quote _send c = Raise e /\
    set_presence_state quote _send c state = Raise e /\
    typing quote _send room room_id c r timeout = Raise e.
Proof.
  intros quote _send user User room room_id c u e term add rem state r timeout U F.
  unfold search_user_directory, modify_presence_list, presence_list_request,
    get_presence_list, set_presence_state, typing, quoted_user_id.
  rewrite U. cbn. rewrite !F. cbn. repeat split.
Qed.

(** X15 on a server that answers every request with a 403. *)
Lemma X15_witness :
  let c := mkClient false None (Some "@me:example.org") 3600 [] in
  let e := MatrixRequestError 403 "forbidden" in
  let server := fun _ : request => @Raise json e in
  user_id c = Some "@me:example.org" /\
  search_user_directory plain_user plain_User server "bob" = Raise e /\
  set_presence_state (fun s => s) server c "online" = Raise e.
Proof.
  intros c e server.
  destruct (X15_transport_errors_propagate_unchanged (fun s => s) server
              plain_user plain_User string (fun s => s) c "@me:example.org" e "bob"
              None None "online" "!room:example.org" 5000 eq_refl (fun _ => eq_refl))
    as (Hs & _ & _ & Hp & _).
  exact (conj eq_refl (conj Hs Hp)).
Defined.

(** ** The rooms of the client *)

Import Rooms.

Section RoomFacts.

Variable V : Type.

Lemma dict_get_set_same (k : string) (v : V) (d : dict V) :
  dict_get k (dict_set k v d) = Return v.
Proof.
  induction d as [|[k' v'] rest IH]; cbn.
  - now rewrite String.eqb_refl.
  - destruct (String.eqb k' k) eqn:E; cbn; rewrite E; [reflexivity | exact IH].
Qed.

Lemma dict_get_set_other (k k0 : string) (v : V) (d : dict V) :
  k0 <> k -> dict_get k0 (dict_set k v d) = dict_get k0 d.
Proof.
  intros N. induction d as [|[k' v'] rest IH]; cbn.
  - destruct (String.eqb k k0) eqn:E; [|reflexivity].
    apply String.eqb_eq in E. congruence.
  - destruct (String.eqb k' k) eqn:E; cbn.
    + apply String.eqb_eq in E. subst k'.
      destruct (String.eqb k k0) eqn:E2; [|reflexivity].
      apply String.eqb_eq in E2. congruence.
    + now rewrite IH.
Qed.

Lemma dict_set_keys (k : string) (v : V) (d : dict V) :
  map fst (dict_set k v d) =
    if dict_has k d then map fst d else (map fst d ++ [k])%list.
Proof.
  unfold dict_has. induction d as [|[k' v'] rest IH]; cbn; [reflexivity|].
  destruct (String.eqb k' k) eqn:E; cbn; [reflexivity|].
  rewrite IH. now destruct (existsb _ rest).
Qed.

End RoomFacts.

(** X16: when the [Room] constructor returns [r], [_mkroom(room_id)]
    returns [r] (the look-up after the store never fails), [self.rooms]
    then maps [room_id] to [r], every other room id is looked up as before,
    and the room ids stay as they were when [room_id] was already there
    (the earlier room object is replaced) or get [room_id] added at the
    end.  When the constructor raises, that exception comes out and
    [self.rooms] is untouched. *)
Theorem X16_mkroom_stores_and_returns_the_room :
  forall (room : Type) (Room : string -> result room)
         (rid : string) (rooms : dict room),
    let res := fst (_mkroom room Room rid rooms) in
    let rooms' := snd (_mkroom room Room rid rooms) in
    match Room rid with
    | Return r =>
        res = Return r /\
        dict_get rid rooms' = Return r /\
        (forall k : string, k <> rid -> dict_get k rooms' = dict_get k rooms) /\
        map fst rooms' =
          if dict_has rid rooms then map fst rooms else (map fst rooms ++ [rid])%list
    | Raise e => res = Raise e /\ rooms' = rooms
    end.
Proof.
  intros room Room rid rooms. cbv zeta. unfold _mkroom.
  destruct (Room rid) as [r|e]; cbn [fst snd]; [|split; reflexivity].
  rewrite dict_get_set_same.
  repeat split.
  - intros k N. now apply dict_get_set_other.
  - apply dict_set_keys.
Qed.

(** X16 on a client that knows two rooms, one of them made again. *)
Lemma X16_witness :
  let Room := fun rid : string => Return (append "room " rid) in
  let rooms := [("!a:x", "old a"); ("!b:x", "old b")] in
  let rooms' := snd (_mkroom string Room "!a:x" rooms) in
  fst (_mkroom string Room "!a:x" rooms) = Return "room !a:x" /\
  "!b:x" <> "!a:x" /\
  dict_get "!b:x" rooms' = Return "old b" /\
  map fst rooms' = ["!a:x"; "!b:x"].
Proof.
  intros Room rooms rooms'.
  pose proof (X16_mkroom_stores_and_returns_the_room string Room "!a:x" rooms)
    as (Hr & _ & Ho & Hk).
  assert (N : "!b:x" <> "!a:x") by discriminate.
  exact (conj Hr (conj N (conj (Ho "!b:x" N) Hk))).
Defined.

(** ** More on registration and on starting *)

(** X17: registering listeners only appends.  After any sequence of the
    five registration calls the entries that were there are still there, in
    place and in order, followed by one entry per call with the category of
    the method, the wrapped callable and the event type given ([None] for
    invite, leave and presence listeners); [should_listen], [sync_thread],
    [user_id] and the backoff limit are untouched, so registering never
    starts or stops a loop. *)
Theorem X17_registration_only_appends :
  forall (geventify_callback : callback -> callback)
         (rs : list registration) (c : GMatrixClient),
    let c' := perform_all geventify_callback rs c in
    listeners c' =
      (listeners c ++
       map (fun r => mkEntry (kind_of r) (geventify_callback (raw_callback r))
                       (event_type_of r)) rs)%list /\
    should_listen c' = should_listen c /\
    sync_thread c' = sync_thread c /\
    user_id c' = user_id c /\
    bad_sync_timeout_limit c' = bad_sync_timeout_limit c.
Proof.
  intros g rs. unfold perform_all.
  induction rs as [|r rs IH]; intros c; cbv zeta.
  - cbn. rewrite app_nil_r. auto.
  - cbn [fold_left map]. specialize (IH (perform g r c)). cbv zeta in IH.
    destruct IH as (Hl & Hs & Ht & Hu & Hb).
    rewrite Hl, Hs, Ht, Hu, Hb.
    destruct r; cbn; rewrite <- app_assoc; auto.
Qed.

(** X18: a stop request made after [start_listener_thread] but before the
    spawned greenlet first runs is lost: [listen_forever] sets
    [should_listen] again on entry, so the greenlet syncs through a whole
    script of good syncs, retried errors and handled exceptions all the
    same. *)
Theorem X18_stop_before_the_first_iteration_is_lost :
  forall (timeout_ms : Z) (exception_handler : option exception_handler_t)
         (w : world) (script : list sync_step),
    forallb (fun s => good_step s || transient_step s ||
                      handled_step exception_handler s) script = true ->
    let w' := start_listener_thread timeout_ms exception_handler w in
    let stopped := set_should_listen false (client w') in
    exists g : greenlet,
      sync_thread (client w') = Some g /\
      should_listen stopped = false /\
      fst (run g stopped script) = SyncLoop.Pending /\
      sync_calls (trace (snd (run g stopped script))) =
        repeat timeout_ms (List.length script).
Proof.
  intros t h w script F w' stopped. subst w' stopped.
  eexists. split; [reflexivity|]. split; [reflexivity|].
  unfold run, default_bad_sync_timeout, listen_forever.
  cbn [g_timeout_ms g_exception_handler].
  match goal with
  | |- context [listen_loop _ _ _ script ?s0] => set (st0 := s0)
  end.
  destruct (recoverable_run t h 5 script st0 eq_refl F) as (P & _).
  destruct (listen_loop t h 5 script st0) as [s st] eqn:E. cbn [fst snd] in *. subst s.
  split; [reflexivity|]. exact (pending_sync_calls _ _ _ _ _ _ E).
Qed.

(** X18 on two good syncs. *)
Lemma X18_witness :
  let w' := start_listener_thread 1000 None (mkWorld (init None 3600) []) in
  let stopped := set_should_listen false (client w') in
  let script := [mkStep None false; mkStep None false] in
  exists g : greenlet,
    sync_thread (client w') = Some g /\
    should_listen stopped = false /\
    sync_calls (trace (snd (run g stopped script))) = [1000; 1000].
Proof.
  intros w' stopped script.
  destruct (X18_stop_before_the_first_iteration_is_lost 1000 None
              (mkWorld (init None 3600) []) script eq_refl) as (g & Hg & Hs & _ & Hc).
  exact (ex_intro _ g (conj Hg (conj Hs Hc))).
Defined.
